(** * SigmaNetwork: attribute-driven colouring and edge materialisation

    A shallow embedding of [src/SigmaNetwork.jsx].  The React component is
    modelled as an explicit engine state (props, refs, hook state, pending
    timers) with one state transformer per handler or effect of the source;
    [step] runs, for each event, the effects React would run, in the order
    of their declaration.  The external collaborators (language built-ins
    on strings, the distinct-colour generator, the sequential palette, the
    non-linear scales, the random source) are the fields of a [Host] record;
    the graph library and the linear scale are modelled from their
    documented behaviour.

    Modelling conventions.
    - A JavaScript number is [NaN], an infinity or a finite rational; finite
      arithmetic is exact (binary64 rounding and the sign of zero are not
      represented).
    - Row values are primitives: undefined, null, booleans, numbers, strings.
    - Node identifiers in edge rows are strings.
    - A plain object is an association list with unique keys in insertion
      order, without prototype (the engine never relies on the order in
      which integer-like keys are enumerated); a [Set] is a duplicate-free
      list under SameValueZero.
    - An exception is a distinguished result: [None], or [Threw] where the
      state it leaves behind matters.
    - Time is a clock in milliseconds; a pending [setTimeout] is a due time
      and a task; [Tick] fires the pending timer that is due first and
      [Elapse] lets time pass up to the next due time.
    - What is drawn in the DOM (the cluster-label overlay, the legend, the
      camera) is not part of the state. *)

From Stdlib Require Import List String Ascii Bool Arith ZArith QArith Qround Lia.
From Stdlib Require Import Permutation DecimalString Lqa.
Import ListNotations.
Local Open Scope string_scope.
Local Open Scope list_scope.

(* ================================================================== *)
(** ** Numbers *)

Module Num.

Inductive JsNum : Type :=
| NaN
| PInf
| NInf
| Fin (q : Q).

Definition isNaN (n : JsNum) : bool :=
  match n with NaN => true | _ => false end.

Definition isFinite (n : JsNum) : bool :=
  match n with Fin _ => true | _ => false end.

Definition Qltb (a b : Q) : bool := negb (Qle_bool b a).

Definition neg (a : JsNum) : JsNum :=
  match a with
  | NaN => NaN
  | PInf => NInf
  | NInf => PInf
  | Fin q => Fin (- q)
  end.

Definition add (a b : JsNum) : JsNum :=
  match a, b with
  | NaN, _ | _, NaN => NaN
  | PInf, NInf | NInf, PInf => NaN
  | PInf, _ | _, PInf => PInf
  | NInf, _ | _, NInf => NInf
  | Fin x, Fin y => Fin (x + y)
  end.

Definition sub (a b : JsNum) : JsNum := add a (neg b).

(** Sign of a number as seen by multiplication and division; zero counts as
    positive zero. *)
Definition inf_of_sign (positive : bool) : JsNum :=
  if positive then PInf else NInf.

Definition mul (a b : JsNum) : JsNum :=
  match a, b with
  | NaN, _ | _, NaN => NaN
  | Fin x, Fin y => Fin (x * y)
  | Fin x, PInf | PInf, Fin x =>
      if Qeq_bool x 0 then NaN else inf_of_sign (Qltb 0 x)
  | Fin x, NInf | NInf, Fin x =>
      if Qeq_bool x 0 then NaN else inf_of_sign (Qltb x 0)
  | PInf, PInf | NInf, NInf => PInf
  | PInf, NInf | NInf, PInf => NInf
  end.

Definition div (a b : JsNum) : JsNum :=
  match a, b with
  | NaN, _ | _, NaN => NaN
  | Fin x, Fin y =>
      if Qeq_bool y 0
      then (if Qeq_bool x 0 then NaN else inf_of_sign (Qltb 0 x))
      else Fin (x / y)
  | Fin _, (PInf | NInf) => Fin 0
  | PInf, Fin y => inf_of_sign (Qle_bool 0 y)
  | NInf, Fin y => inf_of_sign (Qltb y 0)
  | (PInf | NInf), (PInf | NInf) => NaN
  end.

(** [Math.min] and [Math.max]. *)
Definition min (a b : JsNum) : JsNum :=
  match a, b with
  | NaN, _ | _, NaN => NaN
  | NInf, _ | _, NInf => NInf
  | PInf, x | x, PInf => x
  | Fin x, Fin y => if Qle_bool x y then Fin x else Fin y
  end.

Definition max (a b : JsNum) : JsNum :=
  match a, b with
  | NaN, _ | _, NaN => NaN
  | PInf, _ | _, PInf => PInf
  | NInf, x | x, NInf => x
  | Fin x, Fin y => if Qle_bool x y then Fin y else Fin x
  end.

(** [Math.floor]. *)
Definition floor (a : JsNum) : JsNum :=
  match a with
  | Fin q => Fin (inject_Z (Qfloor q))
  | other => other
  end.

(** [a === b] on numbers. *)
Definition eqb (a b : JsNum) : bool :=
  match a, b with
  | PInf, PInf | NInf, NInf => true
  | Fin x, Fin y => Qeq_bool x y
  | _, _ => false
  end.

(** [a < b] on numbers. *)
Definition ltb (a b : JsNum) : bool :=
  match a, b with
  | NaN, _ | _, NaN => false
  | _, NInf => false
  | NInf, _ => true
  | PInf, _ => false
  | Fin _, PInf => true
  | Fin x, Fin y => Qltb x y
  end.

(** SameValueZero on numbers: like [===] but [NaN] equals itself. *)
Definition sameValueZero (a b : JsNum) : bool :=
  match a, b with
  | NaN, NaN => true
  | _, _ => eqb a b
  end.

(** The representative handed to the host's number printer. *)
Definition canon (a : JsNum) : JsNum :=
  match a with
  | Fin q => Fin (Qred q)
  | other => other
  end.

Definition of_Z (z : Z) : JsNum := Fin (inject_Z z).

(** The array index denoted by a number, if it denotes one. *)
Definition toIndex (a : JsNum) : option nat :=
  match a with
  | Fin q =>
      if Qeq_bool q (inject_Z (Qfloor q)) && (0 <=? Qfloor q)%Z
      then Some (Z.to_nat (Qfloor q))
      else None
  | _ => None
  end.

End Num.
Export Num.

(* ================================================================== *)
(** ** Values, objects and sets *)

Inductive JsVal : Type :=
| VUndef
| VNull
| VBool (b : bool)
| VNum (n : JsNum)
| VStr (s : string).

(** [v != null]. *)
Definition notNullish (v : JsVal) : bool :=
  match v with VUndef | VNull => false | _ => true end.

(** Truthiness, as tested by [if (v)], [v || d] and [!v]. *)
Definition truthy (v : JsVal) : bool :=
  match v with
  | VUndef | VNull => false
  | VBool b => b
  | VNum NaN => false
  | VNum (Fin q) => negb (Qeq_bool q 0)
  | VNum _ => true
  | VStr s => negb (s =? "")
  end.

(** [v === ''] *)
Definition isEmptyStr (v : JsVal) : bool :=
  match v with VStr s => s =? "" | _ => false end.

(** SameValueZero, the equality of [Set] and of [Array.prototype.includes]. *)
Definition sameValueZero (a b : JsVal) : bool :=
  match a, b with
  | VUndef, VUndef | VNull, VNull => true
  | VBool x, VBool y => Bool.eqb x y
  | VNum x, VNum y => Num.sameValueZero x y
  | VStr x, VStr y => x =? y
  | _, _ => false
  end.

(** A plain object: own properties in insertion order. *)
Definition Obj (A : Type) : Type := list (string * A).

Fixpoint lookup {A} (o : Obj A) (k : string) : option A :=
  match o with
  | [] => None
  | (k', v) :: rest => if k' =? k then Some v else lookup rest k
  end.

(** [o[k] = v]: overwrite in place or append. *)
Fixpoint assign {A} (o : Obj A) (k : string) (v : A) : Obj A :=
  match o with
  | [] => [(k, v)]
  | (k', v') :: rest =>
      if k' =? k then (k', v) :: rest else (k', v') :: assign rest k v
  end.

Definition keys {A} (o : Obj A) : list string := map fst o.

Definition Attrs : Type := Obj JsVal.

(** [attrs[k]], with [undefined] for an absent property. *)
Definition getAttr (attrs : Attrs) (k : string) : JsVal :=
  match lookup attrs k with Some v => v | None => VUndef end.

(** [{...a, ...b}] *)
Definition spread {A} (a b : Obj A) : Obj A :=
  fold_left (fun acc kv => assign acc (fst kv) (snd kv)) b a.

Definition JsSet : Type := list JsVal.

Definition set_has (s : JsSet) (v : JsVal) : bool :=
  existsb (sameValueZero v) s.

Definition set_add (s : JsSet) (v : JsVal) : JsSet :=
  if set_has s v then s else s ++ [v].

Definition set_delete (s : JsSet) (v : JsVal) : JsSet :=
  filter (fun x => negb (sameValueZero v x)) s.

(** [new Set(array)] *)
Definition set_of_list (l : list JsVal) : JsSet :=
  fold_left set_add l [].

(** [arr[i] ?? d] on an array of colour strings. *)
Definition nthOr (arr : list string) (i : option nat) (d : string) : string :=
  match i with
  | Some n => nth n arr d
  | None => d
  end.

(* ================================================================== *)
(** ** The host environment *)

(** What an external colour source hands back: it raises, it returns
    nothing ([undefined] or [null]), or it returns an array of colours. *)
Inductive ExtColors : Type :=
| Raises
| Nothing
| Colors (cs : list string).

(** The collaborators the component imports or inherits from the language.
    Calls whose answer may change from one call to the next take the
    engine's oracle counter as first argument. *)
Record Host : Type := {
  (** [Number(s)] on a string *)
  StringToNumber : string -> JsNum;
  (** [String(n)] on a number *)
  NumberToString : JsNum -> string;
  (** [parseFloat(s)] on a string *)
  parseFloatString : string -> JsNum;
  (** [a.localeCompare(b)] on strings *)
  localeCompare : string -> string -> Z;
  (** [Math.random()] *)
  random : nat -> Q;
  (** [iwanthue(count)] *)
  iwanthue : nat -> nat -> ExtColors;
  (** [getSequentialColors(name, steps)] *)
  getSequentialColors : nat -> string -> nat -> ExtColors;
  (** [scaleLog().domain([d0, d1]).range([0, 1])(x)] and its siblings *)
  scaleLog : JsNum -> JsNum -> JsNum -> JsNum;
  scaleSqrt : JsNum -> JsNum -> JsNum -> JsNum;
  scalePow2 : JsNum -> JsNum -> JsNum -> JsNum
}.

(** [d3.scaleLinear().domain([d0, d1]).range([0, 1])(x)] for a number [x]
    that is not [NaN]: the domain is normalised by [(x - d0) / (d1 - d0)]
    (a constant when the extent is zero or [NaN]) and the result is
    interpolated between 0 and 1 by [t => 0 * (1 - t) + 1 * t]. *)
Definition scaleLinear (d0 d1 x : JsNum) : JsNum :=
  let b := Num.sub d1 d0 in
  let t :=
    if Num.isNaN b then NaN
    else if Num.eqb b (Fin 0) then Fin (1 # 2)
    else Num.div (Num.sub x d0) b in
  Num.add (Num.mul (Fin 0) (Num.sub (Fin 1) t)) (Num.mul (Fin 1) t).

Section Conversions.

Variable H : Host.

(** [Number(v)] *)
Definition ToNumber (v : JsVal) : JsNum :=
  match v with
  | VUndef => NaN
  | VNull => Fin 0
  | VBool b => if b then Fin 1 else Fin 0
  | VNum n => n
  | VStr s => StringToNumber H s
  end.

(** [String(v)], also the property key under which [v] indexes an object. *)
Definition toKey (v : JsVal) : string :=
  match v with
  | VUndef => "undefined"
  | VNull => "null"
  | VBool b => if b then "true" else "false"
  | VNum n => NumberToString H (Num.canon n)
  | VStr s => s
  end.

(** [parseFloat(v)]: the argument is first turned into a string, and a
    number printed and read back is itself. *)
Definition parseFloat (v : JsVal) : JsNum :=
  match v with
  | VNum n => n
  | VStr s => parseFloatString H s
  | _ => NaN
  end.

(** [a.localeCompare(b)]; only strings carry the method, so any other
    receiver raises a TypeError ([None]). *)
Definition localeCompareVal (a b : JsVal) : option Z :=
  match a with
  | VStr s => Some (localeCompare H s (toKey b))
  | _ => None
  end.

(** Insertion of [x] into a sorted prefix, calling the comparator with
    the new element as receiver. *)
Fixpoint sortInsert (x : JsVal) (sorted : list JsVal) : option (list JsVal) :=
  match sorted with
  | [] => Some [x]
  | y :: rest =>
      match localeCompareVal x y with
      | None => None
      | Some c =>
          if (c <? 0)%Z then Some (x :: y :: rest)
          else match sortInsert x rest with
               | None => None
               | Some rest' => Some (y :: rest')
               end
      end
  end.

(** [arr.sort((a, b) => a.localeCompare(b))].  The order in which an
    engine calls the comparator is its own; this is a stable insertion
    sort, which like the engines never calls the comparator on an array of
    fewer than two elements. *)
Definition sortByLocale (l : list JsVal) : option (list JsVal) :=
  fold_left
    (fun acc x => match acc with
                  | None => None
                  | Some sorted => sortInsert x sorted
                  end)
    l (Some []).

End Conversions.

(* ================================================================== *)
(** ** The graph (graphology, default options: mixed, simple, self-loops) *)

Record EdgeAttributes : Type := {
  weight : JsVal;
  color : string;
  size : Q
}.

Record Edge : Type := {
  source : string;
  target : string;
  attributes : EdgeAttributes
}.

Record Graph : Type := {
  nodes : list (string * Attrs);
  edges : list Edge
}.

Definition emptyGraph : Graph := {| nodes := []; edges := [] |}.

Definition hasNode (g : Graph) (id : string) : bool :=
  existsb (fun n => fst n =? id) (nodes g).

Definition hasEdge (g : Graph) (s t : string) : bool :=
  existsb (fun e => (source e =? s) && (target e =? t)) (edges g).

(** [graph.addNode(id, attrs)] raises when the node exists. *)
Definition addNode (g : Graph) (id : string) (attrs : Attrs) : option Graph :=
  if hasNode g id then None
  else Some {| nodes := nodes g ++ [(id, attrs)]; edges := edges g |}.

(** [graph.addEdge(s, t, attrs)] adds a directed edge; it raises when an
    endpoint is missing or when the graph already has an edge from [s] to
    [t]. *)
Definition addEdge (g : Graph) (s t : string) (a : EdgeAttributes) : option Graph :=
  if hasNode g s && hasNode g t && negb (hasEdge g s t)
  then Some {| nodes := nodes g;
               edges := edges g ++ [{| source := s; target := t; attributes := a |}] |}
  else None.

(** [try { g.addEdge(s, t, a); } catch {}] *)
Definition tryAddEdge (g : Graph) (e : Edge) : Graph :=
  match addEdge g (source e) (target e) (attributes e) with
  | Some g' => g'
  | None => g
  end.

Definition clearEdges (g : Graph) : Graph :=
  {| nodes := nodes g; edges := [] |}.

(** [graph.getNodeAttribute(node, k)] raises when the node is missing. *)
Definition getNodeAttribute (g : Graph) (node k : string) : option JsVal :=
  match lookup (nodes g) node with
  | Some attrs => Some (getAttr attrs k)
  | None => None
  end.

Definition setNodeAttribute (g : Graph) (node k : string) (v : JsVal) : Graph :=
  {| nodes := map (fun n => if fst n =? node
                            then (fst n, assign (snd n) k v) else n) (nodes g);
     edges := edges g |}.

(* ================================================================== *)
(** ** Engine state *)

Record EdgeRow : Type := {
  r_source : string;
  r_target : string;
  r_weight : JsVal
}.

(** What a pending [setTimeout] callback will do. *)
Inductive Task : Type :=
| CallNetworkReady (hasCallback : bool)
| OnNetworkReady
| UpdateEdges (node : string).

Record Timer : Type := { due : nat; task : Task }.

Record Props : Type := {
  edgeRows : list EdgeRow;
  metadataRows : list Attrs;
  colorBy : string;
  highlightedNode : option string;
  hoveredNode : option string;
  edgeMode : string;
  enableDynamicEdges : bool;
  showLabels : bool;
  (** whether the parent passed an [onNetworkReady] callback *)
  onNetworkReady : bool
}.

Record Refs : Type := {
  sigmaInstance : option Graph;
  metadataRef : option (Obj Attrs);
  allEdgesRef : list Edge;
  ptuPaletteRef : Obj string;
  networkReadyCalledRef : bool;
  isInitialLoadRef : bool;
  enableDynamicEdgesRef : bool;
  handleCommunitiesRunning : bool;
  numericDomainRef : JsNum * JsNum
}.

Record Hooks : Type := {
  communities : list JsVal;
  palette : Obj string;
  visibleComms : JsSet;
  highlightedComms : JsSet;
  isNumeric : bool;
  sequentialPaletteName : string;
  isReversed : bool;
  numericPaletteState : list string;
  scaleType : string
}.

Record World : Type := {
  (** number of oracle answers consumed so far *)
  oracle : nat;
  clock : nat;
  timers : list Timer;
  (** how many times the parent's [onNetworkReady] has run *)
  notified : nat
}.

Record Engine : Type := {
  props : Props;
  refs : Refs;
  hooks : Hooks;
  world : World
}.

Definition with_props (f : Props -> Props) (st : Engine) : Engine :=
  {| props := f (props st); refs := refs st; hooks := hooks st; world := world st |}.
Definition with_refs (f : Refs -> Refs) (st : Engine) : Engine :=
  {| props := props st; refs := f (refs st); hooks := hooks st; world := world st |}.
Definition with_hooks (f : Hooks -> Hooks) (st : Engine) : Engine :=
  {| props := props st; refs := refs st; hooks := f (hooks st); world := world st |}.
Definition with_world (f : World -> World) (st : Engine) : Engine :=
  {| props := props st; refs := refs st; hooks := hooks st; world := f (world st) |}.

(** The outcome of a call that may be skipped or may raise. *)
Inductive Outcome : Type :=
| Published (st : Engine)
| Skipped (st : Engine)
| Threw (st : Engine).

Definition outcomeState (o : Outcome) : Engine :=
  match o with Published st | Skipped st | Threw st => st end.

Definition publishedState (o : Outcome) : option Engine :=
  match o with Published st => Some st | _ => None end.

(** The component as first rendered: default props, empty hook state. *)
Definition initialEngine (hasCallback : bool) : Engine :=
  {| props := {| edgeRows := []; metadataRows := []; colorBy := "group";
                 highlightedNode := None; hoveredNode := None;
                 edgeMode := "none"; enableDynamicEdges := true;
                 showLabels := false; onNetworkReady := hasCallback |};
     refs := {| sigmaInstance := None; metadataRef := None; allEdgesRef := [];
                ptuPaletteRef := []; networkReadyCalledRef := false;
                isInitialLoadRef := true; enableDynamicEdgesRef := true;
                handleCommunitiesRunning := false;
                numericDomainRef := (Fin 0, Fin 0) |};
     hooks := {| communities := []; palette := []; visibleComms := [];
                 highlightedComms := []; isNumeric := false;
                 sequentialPaletteName := "Blues"; isReversed := false;
                 numericPaletteState := []; scaleType := "linear" |};
     world := {| oracle := 0; clock := 0; timers := []; notified := 0 |} |}.

(* ------------------------------------------------------------------ *)
(** *** Field updates *)

Definition set_sigmaInstance (g : option Graph) : Engine -> Engine :=
  with_refs (fun r =>
    {| sigmaInstance := g; metadataRef := metadataRef r;
       allEdgesRef := allEdgesRef r; ptuPaletteRef := ptuPaletteRef r;
       networkReadyCalledRef := networkReadyCalledRef r;
       isInitialLoadRef := isInitialLoadRef r;
       enableDynamicEdgesRef := enableDynamicEdgesRef r;
       handleCommunitiesRunning := handleCommunitiesRunning r;
       numericDomainRef := numericDomainRef r |}).

Definition set_metadataRef (m : option (Obj Attrs)) : Engine -> Engine :=
  with_refs (fun r =>
    {| sigmaInstance := sigmaInstance r; metadataRef := m;
       allEdgesRef := allEdgesRef r; ptuPaletteRef := ptuPaletteRef r;
       networkReadyCalledRef := networkReadyCalledRef r;
       isInitialLoadRef := isInitialLoadRef r;
       enableDynamicEdgesRef := enableDynamicEdgesRef r;
       handleCommunitiesRunning := handleCommunitiesRunning r;
       numericDomainRef := numericDomainRef r |}).

Definition set_allEdgesRef (es : list Edge) : Engine -> Engine :=
  with_refs (fun r =>
    {| sigmaInstance := sigmaInstance r; metadataRef := metadataRef r;
       allEdgesRef := es; ptuPaletteRef := ptuPaletteRef r;
       networkReadyCalledRef := networkReadyCalledRef r;
       isInitialLoadRef := isInitialLoadRef r;
       enableDynamicEdgesRef := enableDynamicEdgesRef r;
       handleCommunitiesRunning := handleCommunitiesRunning r;
       numericDomainRef := numericDomainRef r |}).

Definition set_ptuPaletteRef (p : Obj string) : Engine -> Engine :=
  with_refs (fun r =>
    {| sigmaInstance := sigmaInstance r; metadataRef := metadataRef r;
       allEdgesRef := allEdgesRef r; ptuPaletteRef := p;
       networkReadyCalledRef := networkReadyCalledRef r;
       isInitialLoadRef := isInitialLoadRef r;
       enableDynamicEdgesRef := enableDynamicEdgesRef r;
       handleCommunitiesRunning := handleCommunitiesRunning r;
       numericDomainRef := numericDomainRef r |}).

Definition set_networkReadyCalledRef (b : bool) : Engine -> Engine :=
  with_refs (fun r =>
    {| sigmaInstance := sigmaInstance r; metadataRef := metadataRef r;
       allEdgesRef := allEdgesRef r; ptuPaletteRef := ptuPaletteRef r;
       networkReadyCalledRef := b;
       isInitialLoadRef := isInitialLoadRef r;
       enableDynamicEdgesRef := enableDynamicEdgesRef r;
       handleCommunitiesRunning := handleCommunitiesRunning r;
       numericDomainRef := numericDomainRef r |}).

Definition set_isInitialLoadRef (b : bool) : Engine -> Engine :=
  with_refs (fun r =>
    {| sigmaInstance := sigmaInstance r; metadataRef := metadataRef r;
       allEdgesRef := allEdgesRef r; ptuPaletteRef := ptuPaletteRef r;
       networkReadyCalledRef := networkReadyCalledRef r;
       isInitialLoadRef := b;
       enableDynamicEdgesRef := enableDynamicEdgesRef r;
       handleCommunitiesRunning := handleCommunitiesRunning r;
       numericDomainRef := numericDomainRef r |}).

Definition set_enableDynamicEdgesRef (b : bool) : Engine -> Engine :=
  with_refs (fun r =>
    {| sigmaInstance := sigmaInstance r; metadataRef := metadataRef r;
       allEdgesRef := allEdgesRef r; ptuPaletteRef := ptuPaletteRef r;
       networkReadyCalledRef := networkReadyCalledRef r;
       isInitialLoadRef := isInitialLoadRef r;
       enableDynamicEdgesRef := b;
       handleCommunitiesRunning := handleCommunitiesRunning r;
       numericDomainRef := numericDomainRef r |}).

Definition set_handleCommunitiesRunning (b : bool) : Engine -> Engine :=
  with_refs (fun r =>
    {| sigmaInstance := sigmaInstance r; metadataRef := metadataRef r;
       allEdgesRef := allEdgesRef r; ptuPaletteRef := ptuPaletteRef r;
       networkReadyCalledRef := networkReadyCalledRef r;
       isInitialLoadRef := isInitialLoadRef r;
       enableDynamicEdgesRef := enableDynamicEdgesRef r;
       handleCommunitiesRunning := b;
       numericDomainRef := numericDomainRef r |}).

Definition set_numericDomainRef (d : JsNum * JsNum) : Engine -> Engine :=
  with_refs (fun r =>
    {| sigmaInstance := sigmaInstance r; metadataRef := metadataRef r;
       allEdgesRef := allEdgesRef r; ptuPaletteRef := ptuPaletteRef r;
       networkReadyCalledRef := networkReadyCalledRef r;
       isInitialLoadRef := isInitialLoadRef r;
       enableDynamicEdgesRef := enableDynamicEdgesRef r;
       handleCommunitiesRunning := handleCommunitiesRunning r;
       numericDomainRef := d |}).

Definition set_visibleComms (s : JsSet) : Engine -> Engine :=
  with_hooks (fun h =>
    {| communities := communities h; palette := palette h;
       visibleComms := s; highlightedComms := highlightedComms h;
       isNumeric := isNumeric h;
       sequentialPaletteName := sequentialPaletteName h;
       isReversed := isReversed h;
       numericPaletteState := numericPaletteState h;
       scaleType := scaleType h |}).

Definition set_highlightedComms (s : JsSet) : Engine -> Engine :=
  with_hooks (fun h =>
    {| communities := communities h; palette := palette h;
       visibleComms := visibleComms h; highlightedComms := s;
       isNumeric := isNumeric h;
       sequentialPaletteName := sequentialPaletteName h;
       isReversed := isReversed h;
       numericPaletteState := numericPaletteState h;
       scaleType := scaleType h |}).

Definition set_sequentialPaletteName (n : string) : Engine -> Engine :=
  with_hooks (fun h =>
    {| communities := communities h; palette := palette h;
       visibleComms := visibleComms h; highlightedComms := highlightedComms h;
       isNumeric := isNumeric h;
       sequentialPaletteName := n;
       isReversed := isReversed h;
       numericPaletteState := numericPaletteState h;
       scaleType := scaleType h |}).

Definition set_isReversed (b : bool) : Engine -> Engine :=
  with_hooks (fun h =>
    {| communities := communities h; palette := palette h;
       visibleComms := visibleComms h; highlightedComms := highlightedComms h;
       isNumeric := isNumeric h;
       sequentialPaletteName := sequentialPaletteName h;
       isReversed := b;
       numericPaletteState := numericPaletteState h;
       scaleType := scaleType h |}).

Definition set_scaleType (s : string) : Engine -> Engine :=
  with_hooks (fun h =>
    {| communities := communities h; palette := palette h;
       visibleComms := visibleComms h; highlightedComms := highlightedComms h;
       isNumeric := isNumeric h;
       sequentialPaletteName := sequentialPaletteName h;
       isReversed := isReversed h;
       numericPaletteState := numericPaletteState h;
       scaleType := s |}).

Definition set_rows (er : list EdgeRow) (mr : list Attrs) : Engine -> Engine :=
  with_props (fun p =>
    {| edgeRows := er; metadataRows := mr; colorBy := colorBy p;
       highlightedNode := highlightedNode p; hoveredNode := hoveredNode p;
       edgeMode := edgeMode p; enableDynamicEdges := enableDynamicEdges p;
       showLabels := showLabels p; onNetworkReady := onNetworkReady p |}).

Definition set_colorBy (k : string) : Engine -> Engine :=
  with_props (fun p =>
    {| edgeRows := edgeRows p; metadataRows := metadataRows p; colorBy := k;
       highlightedNode := highlightedNode p; hoveredNode := hoveredNode p;
       edgeMode := edgeMode p; enableDynamicEdges := enableDynamicEdges p;
       showLabels := showLabels p; onNetworkReady := onNetworkReady p |}).

Definition set_highlightedNode (n : option string) : Engine -> Engine :=
  with_props (fun p =>
    {| edgeRows := edgeRows p; metadataRows := metadataRows p;
       colorBy := colorBy p;
       highlightedNode := n; hoveredNode := hoveredNode p;
       edgeMode := edgeMode p; enableDynamicEdges := enableDynamicEdges p;
       showLabels := showLabels p; onNetworkReady := onNetworkReady p |}).

Definition set_hoveredNode (n : option string) : Engine -> Engine :=
  with_props (fun p =>
    {| edgeRows := edgeRows p; metadataRows := metadataRows p;
       colorBy := colorBy p;
       highlightedNode := highlightedNode p; hoveredNode := n;
       edgeMode := edgeMode p; enableDynamicEdges := enableDynamicEdges p;
       showLabels := showLabels p; onNetworkReady := onNetworkReady p |}).

Definition set_edgeMode (m : string) : Engine -> Engine :=
  with_props (fun p =>
    {| edgeRows := edgeRows p; metadataRows := metadataRows p;
       colorBy := colorBy p;
       highlightedNode := highlightedNode p; hoveredNode := hoveredNode p;
       edgeMode := m; enableDynamicEdges := enableDynamicEdges p;
       showLabels := showLabels p; onNetworkReady := onNetworkReady p |}).

Definition set_enableDynamicEdges (b : bool) : Engine -> Engine :=
  with_props (fun p =>
    {| edgeRows := edgeRows p; metadataRows := metadataRows p;
       colorBy := colorBy p;
       highlightedNode := highlightedNode p; hoveredNode := hoveredNode p;
       edgeMode := edgeMode p; enableDynamicEdges := b;
       showLabels := showLabels p; onNetworkReady := onNetworkReady p |}).

Definition set_oracle (n : nat) : Engine -> Engine :=
  with_world (fun w =>
    {| oracle := n; clock := clock w; timers := timers w;
       notified := notified w |}).

Definition set_clock (n : nat) : Engine -> Engine :=
  with_world (fun w =>
    {| oracle := oracle w; clock := n; timers := timers w;
       notified := notified w |}).

Definition set_timers (ts : list Timer) : Engine -> Engine :=
  with_world (fun w =>
    {| oracle := oracle w; clock := clock w; timers := ts;
       notified := notified w |}).

Definition set_notified (n : nat) : Engine -> Engine :=
  with_world (fun w =>
    {| oracle := oracle w; clock := clock w; timers := timers w;
       notified := n |}).

(** [setTimeout(task, delay)] *)
Definition setTimeout (t : Task) (delay : nat) (st : Engine) : Engine :=
  set_timers (timers (world st) ++ [{| due := clock (world st) + delay; task := t |}]) st.

(* ================================================================== *)
(** ** The palette pipeline: [handleCommunities] *)

(** What one run of the pipeline hands to the five state setters. *)
Record Publication : Type := {
  newIsNumeric : bool;
  newPalette : Obj string;
  newCommunities : list JsVal;
  newVisibleComms : JsSet;
  (** [undefined] outside numeric mode or when the palette came back empty-handed *)
  newNumericPaletteState : option (list string)
}.

(** The five setters at the end of the [try] block. *)
Definition publish (p : Publication) : Engine -> Engine :=
  with_hooks (fun h =>
    {| communities := newCommunities p;
       palette := newPalette p;
       visibleComms := newVisibleComms p;
       highlightedComms := highlightedComms h;
       isNumeric := newIsNumeric p;
       sequentialPaletteName := sequentialPaletteName h;
       isReversed := isReversed h;
       numericPaletteState :=
         match newNumericPaletteState p with
         | Some cs => cs
         | None => numericPaletteState h
         end;
       scaleType := scaleType h |}).

Definition numGradientSteps : Z := 100.

(** [list.forEach((x, i) => ...)]: the elements with their indices. *)
Definition indexed {A} (l : list A) : list (nat * A) :=
  combine (seq 0 (List.length l)) l.

(** [arr[i] || d] on colour strings. *)
Definition nthOrFalsy (arr : list string) (i : nat) (d : string) : string :=
  let c := nth i arr "" in if c =? "" then d else c.

(** [[l[i], l[j]] = [l[j], l[i]]] for indices inside the array. *)
Fixpoint update {A} (l : list A) (i : nat) (x : A) : list A :=
  match l, i with
  | [], _ => []
  | _ :: rest, O => x :: rest
  | y :: rest, S i' => y :: update rest i' x
  end.

Definition swap {A} (l : list A) (i j : nat) : list A :=
  match nth_error l i, nth_error l j with
  | Some a, Some b => update (update l i b) j a
  | _, _ => l
  end.

Section Pipeline.

Variable H : Host.

(** The PTU palette cached for the cluster-label overlay. *)
Definition ptuSetOf (g : Graph) : JsSet :=
  fold_left
    (fun acc n =>
       let v := getAttr (snd n) "new_PTU" in
       set_add acc (if notNullish v && negb (isEmptyStr v) then v else VStr ""))
    (nodes g) [].

Definition ptuPalOf (ptuList : list JsVal) (ptuColors : list string) : Obj string :=
  spread []
    (map (fun ic =>
            (toKey H (snd ic),
             if isEmptyStr (snd ic) then "#d3d3d3"
             else nthOrFalsy ptuColors (fst ic) "#888"))
         (indexed ptuList)).

(** [nodes.map(node => ({ node, v: Number(attr) })).filter(d => !isNaN(d.v))];
    node keys are unique in the graph, so the attribute read through the
    key is the one of the entry. *)
Definition numericDataOf (g : Graph) (key : string) : list (string * JsNum) :=
  filter (fun d => negb (Num.isNaN (snd d)))
         (map (fun n => (fst n, ToNumber H (getAttr (snd n) key))) (nodes g)).

(** [numericData.length === nodes.length] *)
Definition numericOf (g : Graph) (key : string) : bool :=
  Nat.eqb (List.length (numericDataOf g key)) (List.length (nodes g)).

(** The d3 scale selected by [scaleType]. *)
Definition pickScale (sType : string) (minVal maxVal : JsNum) : JsNum -> JsNum :=
  if sType =? "log" then
    let safeMin := if Num.ltb (Fin 0) minVal then minVal else Fin (1 # 1000000) in
    scaleLog H safeMin maxVal
  else if sType =? "sqrt" then scaleSqrt H minVal maxVal
  else if sType =? "pow" then scalePow2 H minVal maxVal
  else scaleLinear minVal maxVal.

(** [Math.floor(Math.max(0, Math.min(1, scale(v))) * (numGradientSteps - 1))] *)
Definition colorIndex (sType : string) (minVal maxVal v : JsNum) : JsNum :=
  let scaled := pickScale sType minVal maxVal v in
  let scaled := Num.max (Fin 0) (Num.min (Fin 1) scaled) in
  Num.floor (Num.mul scaled (Num.of_Z (numGradientSteps - 1))).

(** The gradient stop a value is sent to. *)
Definition stopIndex (sType : string) (minVal maxVal v : JsNum) : JsNum :=
  if Num.eqb (Num.sub maxVal minVal) (Fin 0)
  then Num.floor (Num.div (Num.of_Z numGradientSteps) (Fin 2))
  else colorIndex sType minVal maxVal v.

Definition numericPalMap (sType : string) (minVal maxVal : JsNum)
           (palColors : list string) (numericData : list (string * JsNum))
  : Obj string :=
  spread []
    (map (fun d =>
            (fst d,
             nthOr palColors (Num.toIndex (stopIndex sType minVal maxVal (snd d))) "#888"))
         numericData).

(** The Fisher-Yates loop [for (i = len - 1; i > 0; i--)], one random draw
    per turn.  A draw outside [0, 1) would index outside the array; the
    exchange is then left out. *)
Fixpoint shuffleFrom (i : nat) (w : nat) (cs : list string) : list string :=
  match i with
  | O => cs
  | S i' =>
      let j := Num.toIndex
                 (Num.floor (Fin (random H w * inject_Z (Z.of_nat (i + 1))))) in
      shuffleFrom i' (S w)
        (match j with Some j => swap cs i j | None => cs end)
  end.

(** Distinct non-null values of the colouring attribute, in first-seen order. *)
Definition commSetOf (g : Graph) (key : string) : JsSet :=
  fold_left
    (fun acc n =>
       let v := getAttr (snd n) key in
       if notNullish v then set_add acc v else acc)
    (nodes g) [].

Definition catPalOf (comms : list JsVal) (colorsCat : list string) : Obj string :=
  spread []
    (map (fun ic =>
            (toKey H (snd ic),
             if isEmptyStr (snd ic) then "#d3d3d3"
             else nthOr colorsCat (Some (fst ic)) "#888"))
         (indexed comms)).

(** [iwanthue(n) || []] *)
Definition colorsOrEmpty (r : ExtColors) : list string :=
  match r with Colors cs => cs | _ => [] end.

(** The body of the [try] block up to the setters.  The result carries
    the engine with the refs written so far and, unless something raised,
    the values to publish. *)
Definition pipeline (st : Engine) (graph : Graph) : Engine * option Publication :=
  let key := colorBy (props st) in
  let w := oracle (world st) in
  let ptuList := ptuSetOf graph in
  match iwanthue H w (List.length ptuList) with
  | Raises => (set_oracle (S w) st, None)
  | ptuResult =>
      let ptuPal := ptuPalOf ptuList (colorsOrEmpty ptuResult) in
      let st := set_ptuPaletteRef ptuPal (set_oracle (S w) st) in
      let w := S w in
      let numericData := numericDataOf graph key in
      let numeric := numericOf graph key in
      if key =? "new_PTU" then
        (st, Some {| newIsNumeric := false;
                     newPalette := ptuPal;
                     newCommunities := map VStr (keys ptuPal);
                     newVisibleComms := set_of_list (map VStr (keys ptuPal));
                     newNumericPaletteState := None |})
      else if numeric then
        let values := map snd numericData in
        let minVal := fold_left Num.min values PInf in
        let maxVal := fold_left Num.max values NInf in
        let st := set_numericDomainRef (minVal, maxVal) st in
        let st := set_oracle (S w) st in
        match getSequentialColors H w (sequentialPaletteName (hooks st))
                                  (Z.to_nat numGradientSteps) with
        | Raises => (st, None)
        | Nothing =>
            (* spreading or indexing [undefined] raises a TypeError *)
            if isReversed (hooks st) then (st, None)
            else match numericData with
                 | _ :: _ => (st, None)
                 | [] => (st, Some {| newIsNumeric := true;
                                      newPalette := [];
                                      newCommunities := [];
                                      newVisibleComms := [];
                                      newNumericPaletteState := None |})
                 end
        | Colors cs =>
            let palColors := if isReversed (hooks st) then rev cs else cs in
            (st, Some {| newIsNumeric := true;
                         newPalette :=
                           numericPalMap (scaleType (hooks st)) minVal maxVal
                                         palColors numericData;
                         newCommunities := [];
                         newVisibleComms := [];
                         newNumericPaletteState := Some palColors |})
        end
      else
        let allComms := commSetOf graph key in
        match iwanthue H w (List.length allComms) with
        | Raises => (set_oracle (S w) st, None)
        | catResult =>
            let colorsCat := colorsOrEmpty catResult in
            let st := set_oracle (S w + (List.length colorsCat - 1)) st in
            let colorsCat := shuffleFrom (List.length colorsCat - 1) (S w) colorsCat in
            match sortByLocale H (filter (fun c => negb (isEmptyStr c)) allComms) with
            | None => (st, None)
            | Some nonMissing =>
                let missing := if set_has allComms (VStr "") then [VStr ""] else [] in
                let comms := nonMissing ++ missing in
                (st, Some {| newIsNumeric := false;
                             newPalette := catPalOf comms colorsCat;
                             newCommunities := comms;
                             newVisibleComms := set_of_list comms;
                             newNumericPaletteState := None |})
            end
        end
  end.

(** [handleCommunities(graph)]: the re-entrancy guard, the [try] block and
    its [finally]. *)
Definition handleCommunities (st : Engine) (graph : Graph) : Outcome :=
  if handleCommunitiesRunning (refs st) then Skipped st
  else
    let st := set_handleCommunitiesRunning true st in
    match pipeline st graph with
    | (st, Some p) => Published (set_handleCommunitiesRunning false (publish p st))
    | (st, None) => Threw (set_handleCommunitiesRunning false st)
    end.

End Pipeline.

(* ================================================================== *)
(** ** Graph construction: [loadFromEdgeList] and [renderGraph] *)

(** [new Set(ids)] on strings: first occurrences, in order. *)
Definition uniq (l : list string) : list string :=
  fold_left (fun acc x => if existsb (String.eqb x) acc then acc else acc ++ [x]) l [].

Definition touches (node : string) (e : Edge) : bool :=
  (source e =? node) || (target e =? node).

Section Handlers.

Variable H : Host.

(** [edgeRows.map(r => ({ source, target, attributes }))] *)
Definition edgeOfRow (r : EdgeRow) : Edge :=
  {| source := r_source r;
     target := r_target r;
     attributes := {| weight := if truthy (r_weight r) then r_weight r
                                else VNum (Fin 1);
                      color := "rgb(227,227,227)";
                      size := 1 |} |}.

(** The attribute object of one node and the oracle after its draws:
    [{ ...attrs, x, y, size: 0.7, label: id }]. *)
Definition nodeAttrsOf (meta : option (Obj Attrs)) (w : nat) (id : string)
  : Attrs * nat :=
  let attrs := match meta with
               | Some m => match lookup m id with Some a => a | None => [] end
               | None => []
               end in
  let x := parseFloat H (getAttr attrs "x") in
  let y := parseFloat H (getAttr attrs "y") in
  let '(x, w) := if Num.isNaN x then (Fin (random H w * 10), S w) else (x, w) in
  let '(y, w) := if Num.isNaN y then (Fin (random H w * 10), S w) else (y, w) in
  (spread attrs [("x", VNum x); ("y", VNum y);
                 ("size", VNum (Fin (7 # 10))); ("label", VStr id)], w).

(** [nodeSet.forEach(id => graph.addNode(id, ...))]; [None] when
    [addNode] raises. *)
Definition addNodeStep (meta : option (Obj Attrs)) (acc : option (Graph * nat))
           (id : string) : option (Graph * nat) :=
  match acc with
  | None => None
  | Some (g, w) =>
      match addNode g id (fst (nodeAttrsOf meta w id)) with
      | Some g' => Some (g', snd (nodeAttrsOf meta w id))
      | None => None
      end
  end.

Definition addNodes (meta : option (Obj Attrs)) (ids : list string) (w : nat)
  : option (Graph * nat) :=
  fold_left (addNodeStep meta) ids (Some (emptyGraph, w)).

(** The graph [loadFromEdgeList] builds before handing it to the renderer. *)
Definition buildGraph (st : Engine) : option (Graph * nat) :=
  let edges := map edgeOfRow (edgeRows (props st)) in
  let nodeSet := uniq (flat_map (fun e => [source e; target e]) edges) in
  match addNodes (metadataRef (refs st)) nodeSet (oracle (world st)) with
  | None => None
  | Some (graph, w) =>
      Some (if edgeMode (props st) =? "all"
            then fold_left tryAddEdge edges graph
            else graph, w)
  end.

(** [renderGraph(graph)]: the renderer is re-created on the graph, then
    the palette pipeline runs on it.  (The label overlay it also draws
    lives in the DOM and is not part of the engine state.) *)
Definition renderGraph (st : Engine) (graph : Graph) : Outcome :=
  handleCommunities H (set_sigmaInstance (Some graph) st) graph.

(** [loadFromEdgeList()].  It is an [async] function: whatever raises
    inside it rejects the returned promise and goes no further, so the
    caller always gets an engine back.  The boolean tells whether the
    state setters ran. *)
Definition loadFromEdgeList (st : Engine) : Engine * bool :=
  let edges := map edgeOfRow (edgeRows (props st)) in
  let st := set_allEdgesRef edges st in
  match buildGraph st with
  | None => (st, false)
  | Some (graph, w) =>
      match renderGraph (set_oracle w st) graph with
      | Published st' => (st', true)
      | Skipped st' | Threw st' => (st', false)
      end
  end.

(* ================================================================ *)
(** ** Effects and handlers *)

(** [useEffect(() => { enableDynamicEdgesRef.current = enableDynamicEdges })] *)
Definition syncDynamicEdgesRef (st : Engine) : Engine :=
  set_enableDynamicEdgesRef (enableDynamicEdges (props st)) st.

(** The effect on [[edgeRows, metadataRows]] that re-arms the notification. *)
Definition resetReadyEffect (st : Engine) : Engine :=
  set_isInitialLoadRef true (set_networkReadyCalledRef false st).

(** The effect on [[metadataRows]] that indexes the rows by id. *)
Definition metadataEffect (st : Engine) : Engine :=
  match metadataRows (props st) with
  | [] => st
  | rows =>
      set_metadataRef
        (Some (fold_left
                 (fun m r => let id := getAttr r "id" in
                             if truthy id then assign m (toKey H id) r else m)
                 rows []))
        st
  end.

(** [callNetworkReady()], with the callback the closure saw. *)
Definition callNetworkReady (hasCallback : bool) (st : Engine) : Engine :=
  if negb (networkReadyCalledRef (refs st)) && hasCallback
  then setTimeout OnNetworkReady 100 (set_networkReadyCalledRef true st)
  else st.

(** The effect on [[palette]] that schedules the notification. *)
Definition readyEffect (st : Engine) : Engine :=
  match sigmaInstance (refs st), palette (hooks st) with
  | Some _, _ :: _ =>
      if isInitialLoadRef (refs st)
      then setTimeout (CallNetworkReady (onNetworkReady (props st))) 100
                      (set_isInitialLoadRef false st)
      else st
  | _, _ => st
  end.

(** The effect on [[visibleComms, isNumeric, palette]]. *)
Definition visibilityEffect (st : Engine) : Engine :=
  match sigmaInstance (refs st), palette (hooks st) with
  | Some graph, _ :: _ =>
      if isNumeric (hooks st) then st
      else
        set_sigmaInstance
          (Some {| nodes :=
                     map (fun n =>
                            let v := getAttr (snd n) (colorBy (props st)) in
                            let hidden := notNullish v
                                          && negb (set_has (visibleComms (hooks st)) v) in
                            (fst n, assign (snd n) "hidden" (VBool hidden)))
                         (nodes graph);
                   edges := edges graph |})
          st
  | _, _ => st
  end.

Definition idIs (node : string) (sel : option string) : bool :=
  match sel with Some s => s =? node | None => false end.

(** Truthiness of an optional node id. *)
Definition truthyId (sel : option string) : bool :=
  match sel with Some s => negb (s =? "") | None => false end.

Definition optStr (o : option string) : JsVal :=
  match o with Some s => VStr s | None => VUndef end.

(** The node reducer installed by the effect on the palette and the
    highlight state. *)
Definition nodeReducer (st : Engine) (node : string) (data : Attrs) : Attrs :=
  let key := colorBy (props st) in
  let color :=
    if isNumeric (hooks st)
    then (let c := optStr (lookup (palette (hooks st)) node) in
          if truthy c then c else getAttr data "color")
    else if notNullish (getAttr data key)
         then optStr (lookup (palette (hooks st)) (toKey H (getAttr data key)))
         else getAttr data "color" in
  let highlighted := idIs node (highlightedNode (props st))
                     || set_has (highlightedComms (hooks st)) (getAttr data key) in
  let hovered := idIs node (hoveredNode (props st)) in
  let nodeLabel := getAttr data "label" in
  let newData := spread data [("color", color); ("highlighted", VBool highlighted)] in
  assign newData "label"
         (if negb (showLabels (props st)) then VUndef
          else if negb (highlighted || hovered) then VUndef
          else nodeLabel).

(** [updateEdgesForHighlight(node)] *)
Definition updateEdgesForHighlight (node : string) (st : Engine) : Engine :=
  match sigmaInstance (refs st) with
  | None => st
  | Some g =>
      set_sigmaInstance
        (Some (fold_left (fun g e => if touches node e then tryAddEdge g e else g)
                         (allEdgesRef (refs st)) (clearEdges g)))
        st
  end.

(** The community branch of the dynamic-edge effect; [None] when an edge
    endpoint is not a node of the live graph, which makes
    [getNodeAttribute] raise. *)
Definition communityEdges (st : Engine) (g : Graph) : option Graph :=
  fold_left
    (fun acc e =>
       match acc with
       | None => None
       | Some g =>
           match getNodeAttribute g (source e) (colorBy (props st)),
                 getNodeAttribute g (target e) (colorBy (props st)) with
           | Some srcComm, Some tgtComm =>
               if set_has (highlightedComms (hooks st)) srcComm
                  || set_has (highlightedComms (hooks st)) tgtComm
               then Some (tryAddEdge g e) else Some g
           | _, _ => None
           end
       end)
    (allEdgesRef (refs st)) (Some (clearEdges g)).

(** The effect on [[highlightedNode, highlightedComms, edgeMode,
    enableDynamicEdges]]. *)
Definition dynamicEdgesEffect (st : Engine) : option Engine :=
  match sigmaInstance (refs st) with
  | None => Some st
  | Some g =>
      if negb (edgeMode (props st) =? "none") || negb (enableDynamicEdges (props st))
      then Some st
      else if negb (truthyId (highlightedNode (props st)))
              && Nat.eqb (List.length (highlightedComms (hooks st))) 0
      then Some (set_sigmaInstance (Some (clearEdges g)) st)
      else match highlightedNode (props st) with
           | Some node =>
               if negb (node =? "")
               then Some (updateEdgesForHighlight node st)
               else option_map (fun g' => set_sigmaInstance (Some g') st)
                               (communityEdges st g)
           | None =>
               option_map (fun g' => set_sigmaInstance (Some g') st)
                          (communityEdges st g)
           end
  end.

(** The effect on [[enableDynamicEdges, edgeMode]]. *)
Definition clearWhenDisabledEffect (st : Engine) : Engine :=
  match sigmaInstance (refs st) with
  | None => st
  | Some g =>
      if negb (enableDynamicEdges (props st)) && (edgeMode (props st) =? "none")
      then set_sigmaInstance (Some (clearEdges g)) st
      else st
  end.

(** The effect on [[edgeRows, metadataRows, edgeMode]]. *)
Definition loadEffect (st : Engine) : Engine * bool :=
  match edgeRows (props st), metadataRows (props st) with
  | _ :: _, _ :: _ => loadFromEdgeList st
  | _, _ => (st, false)
  end.

(** The effect on [[edgeRows, metadataRows, colorBy, sequentialPaletteName,
    isReversed]].  An exception here is not caught by anything in the
    component: [None]. *)
Definition recolorEffect (st : Engine) : option (Engine * bool) :=
  match sigmaInstance (refs st) with
  | None => Some (st, false)
  | Some graph =>
      match handleCommunities H st graph with
      | Published st' => Some (st', true)
      | Skipped st' => Some (st', false)
      | Threw _ => None
      end
  end.

(** [toggleComm], [toggleAll], [toggleHighlight]: the state they set. *)
Definition toggleComm (comm : JsVal) (st : Engine) : Engine :=
  let cur := visibleComms (hooks st) in
  set_visibleComms (if set_has cur comm then set_delete cur comm
                    else set_add cur comm) st.

Definition toggleAll (st : Engine) : Engine :=
  if Nat.ltb (List.length (visibleComms (hooks st))) (List.length (communities (hooks st)))
  then set_visibleComms (set_of_list (communities (hooks st))) st
  else set_visibleComms [] st.

Definition toggleHighlight (comm : JsVal) (st : Engine) : Engine :=
  let cur := highlightedComms (hooks st) in
  set_highlightedNode None
    (set_highlightedComms (if set_has cur comm then set_delete cur comm
                           else set_add cur comm) st).

End Handlers.

(* ================================================================== *)
(** ** Events and the order in which effects run

    After a render React runs, in the order of their declaration, the
    effects one of whose dependencies changed; state set by an effect causes
    one more render, after which the effects depending on that state run.
    [step] spells this out for each event. *)

Inductive Event : Type :=
| SetRows (er : list EdgeRow) (mr : list Attrs)
| SetColorBy (k : string)
| SetEdgeMode (m : string)
| SetEnableDynamicEdges (b : bool)
| SetHighlightedNode (n : option string)
| SetHoveredNode (n : option string)
| ClickNode (n : string)
| ClickStage
| ToggleComm (c : JsVal)
| ToggleAll
| ToggleHighlight (c : JsVal)
| SetSequentialPaletteName (n : string)
| SetIsReversed (b : bool)
| SetScaleType (s : string)
| Tick
| Elapse (dt : nat).

Definition optStrEqb (a b : option string) : bool :=
  match a, b with
  | Some x, Some y => x =? y
  | None, None => true
  | _, _ => false
  end.

(** The pending timer that fires next: smallest due time, oldest first. *)
Fixpoint pickTimer (ts : list Timer) : option (Timer * list Timer) :=
  match ts with
  | [] => None
  | t :: rest =>
      match pickTimer rest with
      | None => Some (t, [])
      | Some (t', rest') =>
          if Nat.leb (due t) (due t') then Some (t, rest) else Some (t', t :: rest')
      end
  end.

Section Steps.

Variable H : Host.

(** The effects that depend on the published state: visibility, the
    reducer (a pure function of the state here) and the notification. *)
Definition afterPublication (published : bool) (st : Engine) : Engine :=
  if published then readyEffect (visibilityEffect st) else st.

Definition runTask (t : Task) (st : Engine) : Engine :=
  match t with
  | CallNetworkReady cb => callNetworkReady cb st
  | OnNetworkReady => set_notified (S (notified (world st))) st
  | UpdateEdges node => updateEdgesForHighlight node st
  end.

(** The selection changes (the parent feeds [setHighlightedNode] back as
    the [highlightedNode] prop). *)
Definition select (n : option string) (st : Engine) : option Engine :=
  if optStrEqb n (highlightedNode (props st)) then Some st
  else dynamicEdgesEffect (set_highlightedNode n st).

(** One event, then the effects it triggers, in declaration order:
    - new rows: the reset of the notification refs, the metadata index, the
      load (when both row sets are non-empty), the recolouring on the live
      graph; then, on the published state, visibility and notification;
    - a new colouring key, palette name or reversal: the recolouring, then
      visibility and notification.  The scale type is no dependency of any
      effect: setting it recomputes nothing;
    - a new edge mode: the dynamic-edge effect, the clearing effect, then
      the load, which replaces the graph; then visibility and notification;
    - the dynamic-edges flag: its ref, the dynamic-edge effect, the clearing
      effect;
    - a new selection or highlight set: the dynamic-edge effect;
    - a visibility toggle: the visibility effect;
    - a click on a node: the selection, and in mode none a deferred
      [updateEdgesForHighlight];
    - a setter called with the value already held triggers nothing.
    [None] is an exception that nothing in the component catches. *)
Definition step (st : Engine) (ev : Event) : option Engine :=
  match ev with
  | SetRows er mr =>
      let st := metadataEffect H (resetReadyEffect (set_rows er mr st)) in
      let '(st, p1) := loadEffect H st in
      match recolorEffect H st with
      | None => None
      | Some (st, p2) => Some (afterPublication (p1 || p2) st)
      end
  | SetColorBy k =>
      if k =? colorBy (props st) then Some st
      else match recolorEffect H (set_colorBy k st) with
           | None => None
           | Some (st, p) => Some (afterPublication p st)
           end
  | SetSequentialPaletteName n =>
      if n =? sequentialPaletteName (hooks st) then Some st
      else match recolorEffect H (set_sequentialPaletteName n st) with
           | None => None
           | Some (st, p) => Some (afterPublication p st)
           end
  | SetIsReversed b =>
      if Bool.eqb b (isReversed (hooks st)) then Some st
      else match recolorEffect H (set_isReversed b st) with
           | None => None
           | Some (st, p) => Some (afterPublication p st)
           end
  | SetScaleType s => Some (set_scaleType s st)
  | SetEdgeMode m =>
      if m =? edgeMode (props st) then Some st
      else match dynamicEdgesEffect (set_edgeMode m st) with
           | None => None
           | Some st =>
               let '(st, p) := loadEffect H (clearWhenDisabledEffect st) in
               Some (afterPublication p st)
           end
  | SetEnableDynamicEdges b =>
      if Bool.eqb b (enableDynamicEdges (props st)) then Some st
      else option_map clearWhenDisabledEffect
             (dynamicEdgesEffect (syncDynamicEdgesRef (set_enableDynamicEdges b st)))
  | SetHighlightedNode n => select n st
  | SetHoveredNode n => Some (set_hoveredNode n st)
  | ClickNode n =>
      match sigmaInstance (refs st) with
      | None => Some st
      | Some g =>
          if hasNode g n then
            select (Some n)
              (if (edgeMode (props st) =? "none") && enableDynamicEdgesRef (refs st)
               then setTimeout (UpdateEdges n) 0 st else st)
          else Some st
      end
  | ClickStage =>
      match sigmaInstance (refs st) with
      | None => Some st
      | Some _ => select None (set_hoveredNode None st)
      end
  | ToggleComm c => Some (visibilityEffect (toggleComm c st))
  | ToggleAll => Some (visibilityEffect (toggleAll st))
  | ToggleHighlight c => dynamicEdgesEffect (toggleHighlight c st)
  | Tick =>
      match pickTimer (timers (world st)) with
      | None => Some st
      | Some (t, rest) =>
          Some (runTask (task t)
                  (set_clock (Nat.max (clock (world st)) (due t))
                             (set_timers rest st)))
      end
  | Elapse dt =>
      let target := (clock (world st) + dt)%nat in
      match pickTimer (timers (world st)) with
      | None => Some (set_clock target st)
      | Some (t, _) =>
          Some (set_clock (Nat.max (clock (world st)) (Nat.min target (due t))) st)
      end
  end.

Fixpoint run (st : Engine) (evs : list Event) : option Engine :=
  match evs with
  | [] => Some st
  | ev :: rest =>
      match step st ev with
      | None => None
      | Some st' => run st' rest
      end
  end.

End Steps.

(* ================================================================== *)
(** ** A concrete host, for running the engine on examples *)

Module Demo.

Definition digits (n : nat) : string :=
  NilZero.string_of_uint (Nat.to_uint n).

Fixpoint allDigits (s : string) : bool :=
  match s with
  | EmptyString => true
  | String c rest =>
      (Nat.leb 48 (nat_of_ascii c)) && (Nat.leb (nat_of_ascii c) 57) && allDigits rest
  end.

Fixpoint digitsValue (acc : nat) (s : string) : nat :=
  match s with
  | EmptyString => acc
  | String c rest => digitsValue (10 * acc + (nat_of_ascii c - 48)) rest
  end.

(** [Number(s)] restricted to what the examples use: the empty string is
    zero, ["Infinity"] is infinite, a run of decimal digits is its value,
    anything else is [NaN]. *)
Definition stringToNumber (s : string) : JsNum :=
  if s =? "Infinity" then PInf
  else if allDigits s then Num.of_Z (Z.of_nat (digitsValue 0 s))
  else NaN.

(** [String(n)] for the numbers the examples use. *)
Definition numberToString (n : JsNum) : string :=
  match n with
  | NaN => "NaN"
  | PInf => "Infinity"
  | NInf => "-Infinity"
  | Fin q =>
      let z := Qfloor q in
      if (z <? 0)%Z then ("-" ++ digits (Z.to_nat (- z)))%string
      else digits (Z.to_nat z)
  end.

Definition compareZ (a b : string) : Z :=
  match String.compare a b with
  | Lt => (-1)%Z
  | Eq => 0%Z
  | Gt => 1%Z
  end.

(** [n] colours, named after their position. *)
Definition swatches (prefix : string) (n : nat) : list string :=
  map (fun i => (prefix ++ digits i)%string) (seq 0 n).

Definition host : Host :=
  {| StringToNumber := stringToNumber;
     NumberToString := numberToString;
     parseFloatString := fun s => if s =? "" then NaN else stringToNumber s;
     localeCompare := compareZ;
     random := fun _ => 0;
     iwanthue := fun _ n => Colors (swatches "#c" n);
     getSequentialColors := fun _ _ n => Colors (swatches "#s" n);
     scaleLog := fun _ _ _ => NaN;
     scaleSqrt := fun _ _ _ => NaN;
     scalePow2 := fun _ _ _ => NaN |}.

(** The same host with a colour generator that raises. *)
Definition raisingHost : Host :=
  {| StringToNumber := stringToNumber;
     NumberToString := numberToString;
     parseFloatString := fun s => if s =? "" then NaN else stringToNumber s;
     localeCompare := compareZ;
     random := fun _ => 0;
     iwanthue := fun _ _ => Raises;
     getSequentialColors := fun _ _ n => Colors (swatches "#s" n);
     scaleLog := fun _ _ _ => NaN;
     scaleSqrt := fun _ _ _ => NaN;
     scalePow2 := fun _ _ _ => NaN |}.



Definition row (s t : string) : EdgeRow :=
  {| r_source := s; r_target := t; r_weight := VUndef |}.

Definition num (z : Z) : JsVal := VNum (Num.of_Z z).

(** Three plasmids on a path, with a group and a score each. *)
Definition edges3 : list EdgeRow := [row "n1" "n2"; row "n2" "n3"].

Definition meta3 : list Attrs :=
  [ [("id", VStr "n1"); ("group", VStr "g1"); ("score", num 1)];
    [("id", VStr "n2"); ("group", VStr "g2"); ("score", num 5)];
    [("id", VStr "n3"); ("group", VStr "g2"); ("score", num 10)] ].

Definition loaded3 : option Engine :=
  run host (initialEngine true) [SetRows edges3 meta3].

(** The engine after loading the three plasmids, and its live graph. *)
Definition engine3 : Engine :=
  match loaded3 with Some st => st | None => initialEngine true end.

Definition graph3 : Graph :=
  match sigmaInstance (refs engine3) with Some g => g | None => emptyGraph end.

(** A graph without edges whose nodes carry one attribute each. *)
Definition graphWith (key : string) (l : list (string * JsVal)) : Graph :=
  {| nodes := map (fun n => (fst n, [(key, snd n)])) l; edges := [] |}.

(** The flag published by one run of the pipeline, if it published. *)
Definition classify (h : Host) (key : string) (g : Graph) : option bool :=
  option_map (fun st => isNumeric (hooks st))
    (publishedState (handleCommunities h (set_colorBy key (initialEngine true)) g)).

End Demo.

(* ================================================================== *)
(** ** Notions used in the statements *)

(** The part of the engine [handleCommunities] never writes. *)
Definition frame (st : Engine) :=
  (props st,
   (sigmaInstance (refs st), metadataRef (refs st), allEdgesRef (refs st)),
   (networkReadyCalledRef (refs st), isInitialLoadRef (refs st),
    enableDynamicEdgesRef (refs st)),
   (highlightedComms (hooks st), sequentialPaletteName (hooks st),
    isReversed (hooks st), scaleType (hooks st)),
   (clock (world st), timers (world st), notified (world st))).

(** Successive top-level invocations, each on the engine the previous one
    left behind, whatever its outcome. *)
Fixpoint invokeAll (st : Engine) (calls : list (Host * Graph)) : list Outcome :=
  match calls with
  | [] => []
  | (H, g) :: rest =>
      let o := handleCommunities H st g in
      o :: invokeAll (outcomeState o) rest
  end.

Definition isSkipped (o : Outcome) : bool :=
  match o with Skipped _ => true | _ => false end.

Definition isThrew (o : Outcome) : bool :=
  match o with Threw _ => true | _ => false end.



(** Every endpoint of the known edges is a node of the graph. *)
Definition covers (es : list Edge) (g : Graph) : bool :=
  forallb (fun e => hasNode g (source e) && hasNode g (target e)) es.

Definition endpointsOf (e : Edge) : string * string := (source e, target e).

(** The live graph holds exactly the known edges that touch [node], one per
    (source, target) pair. *)
Definition materializedExactly (es : list Edge) (node : string) (g : Graph) : Prop :=
  (forall e, In e (edges g) -> In e es /\ touches node e = true)
  /\ (forall e, In e es -> touches node e = true ->
                hasEdge g (source e) (target e) = true)
  /\ NoDup (map endpointsOf (edges g)).



Definition isReadyTask (t : Timer) : bool :=
  match task t with UpdateEdges _ => false | _ => true end.

(** The pending timers that belong to the notification, oldest first. *)
Definition readyPending (st : Engine) : list Task :=
  map task (filter isReadyTask (timers (world st))).

(** The part of the engine the notification logic reads and writes. *)
Record ReadyView : Type := {
  rvInitial : bool;
  rvCalled : bool;
  rvPending : list Task;
  rvNotified : nat;
  rvCallback : bool
}.

Definition readyView (st : Engine) : ReadyView :=
  {| rvInitial := isInitialLoadRef (refs st);
     rvCalled := networkReadyCalledRef (refs st);
     rvPending := readyPending st;
     rvNotified := notified (world st);
     rvCallback := onNetworkReady (props st) |}.

(** What one event other than a data change can do to that part. *)
Inductive Trans (r : ReadyView) : ReadyView -> Prop :=
| TSame : Trans r r
| TSchedule :
    rvInitial r = true ->
    Trans r {| rvInitial := false;
               rvCalled := rvCalled r;
               rvPending := rvPending r ++ [CallNetworkReady (rvCallback r)];
               rvNotified := rvNotified r;
               rvCallback := rvCallback r |}
| TCall (c : bool) (l1 l2 : list Task) :
    rvPending r = l1 ++ CallNetworkReady c :: l2 ->
    Trans r {| rvInitial := rvInitial r;
               rvCalled := rvCalled r || c;
               rvPending := (l1 ++ l2)
                            ++ (if negb (rvCalled r) && c then [OnNetworkReady] else []);
               rvNotified := rvNotified r;
               rvCallback := rvCallback r |}
| TNotify (l1 l2 : list Task) :
    rvPending r = l1 ++ OnNetworkReady :: l2 ->
    Trans r {| rvInitial := rvInitial r;
               rvCalled := rvCalled r;
               rvPending := l1 ++ l2;
               rvNotified := S (rvNotified r);
               rvCallback := rvCallback r |}.

Definition isSetRows (ev : Event) : bool :=
  match ev with SetRows _ _ => true | _ => false end.

(** The phases of the notification for one data load: armed, first timer
    pending, second timer pending, notified, or given up for want of a
    callback.  [strict] excludes the armed phase. *)
Definition Ready (n0 : nat) (cb strict : bool) (r : ReadyView) : Prop :=
  rvCallback r = cb
  /\ ((strict = false /\ rvInitial r = true /\ rvCalled r = false
       /\ rvPending r = [] /\ rvNotified r = n0)
      \/ (rvInitial r = false /\ rvCalled r = false
          /\ rvPending r = [CallNetworkReady cb] /\ rvNotified r = n0)
      \/ (cb = true /\ rvInitial r = false /\ rvCalled r = true
          /\ rvPending r = [OnNetworkReady] /\ rvNotified r = n0)
      \/ (cb = true /\ rvInitial r = false /\ rvCalled r = true
          /\ rvPending r = [] /\ rvNotified r = S n0)
      \/ (cb = false /\ rvInitial r = false /\ rvCalled r = false
          /\ rvPending r = [] /\ rvNotified r = n0)).

Definition wellFormed (st : Engine) : Prop :=
  handleCommunitiesRunning (refs st) = false
  /\ match sigmaInstance (refs st) with
     | Some g => covers (allEdgesRef (refs st)) g = true
     | None => True
     end.

(** What [wellFormed] looks at. *)
Definition graphView (st : Engine) :=
  (handleCommunitiesRunning (refs st),
   allEdgesRef (refs st),
   option_map (fun g => map fst (nodes g)) (sigmaInstance (refs st))).

(* ================================================================== *)
(** * Properties *)

(** ** Objects *)

Lemma lookup_assign {A} (o : Obj A) (k k' : string) (v : A) :
  lookup (assign o k v) k' = if k =? k' then Some v else lookup o k'.
Proof.
  induction o as [|[k0 v0] o IH]; simpl.
  - reflexivity.
  - destruct (k0 =? k) eqn:E0.
    + apply String.eqb_eq in E0. subst k0. simpl.
      destruct (k =? k'); reflexivity.
    + simpl. destruct (k0 =? k') eqn:E1.
      * apply String.eqb_eq in E1. subst k0.
        rewrite String.eqb_sym, E0. reflexivity.
      * apply IH.
Qed.


Lemma spread_cons {A} (a : Obj A) (k : string) (v : A) (b : Obj A) :
  spread a ((k, v) :: b) = spread (assign a k v) b.
Proof. reflexivity. Qed.

(** A key written by the spread reads back one of the values written under it. *)
Lemma lookup_spread_in {A} (b : Obj A) :
  forall (a : Obj A) (k : string),
    In k (map fst b) ->
    exists v, In (k, v) b /\ lookup (spread a b) k = Some v.
Proof.
  induction b as [|[k0 v0] b IH]; intros a k Hin; simpl in Hin.
  - contradiction.
  - rewrite spread_cons.
    destruct (in_dec string_dec k (map fst b)) as [Hb|Hb].
    + destruct (IH (assign a k0 v0) k Hb) as [v [Hv Hl]].
      exists v. split; [right; exact Hv|exact Hl].
    + destruct Hin as [->|Hin]; [|contradiction].
      exists v0. split; [left; reflexivity|].
      clear IH. revert a. induction b as [|[k1 v1] b IHb]; intros a.
      * simpl. rewrite lookup_assign, String.eqb_refl. reflexivity.
      * rewrite spread_cons.
        assert (Hne : k1 <> k) by (intro; subst; apply Hb; left; reflexivity).
        assert (Hb' : ~ In k (map fst b)) by (intro; apply Hb; right; assumption).
        specialize (IHb Hb').
        (* the write under [k1] commutes with the one under [k] on key [k] *)
        assert (Hgen : forall (c d : Obj A),
                   lookup c k = lookup d k -> lookup (spread c b) k = lookup (spread d b) k).
        { clear - Hb'. induction b as [|[k2 v2] b IHb2]; intros c d Hcd.
          - exact Hcd.
          - rewrite !spread_cons. apply IHb2.
            + intro; apply Hb'; right; assumption.
            + rewrite !lookup_assign. destruct (k2 =? k); [reflexivity|exact Hcd]. }
        rewrite (Hgen (assign (assign a k v0) k1 v1) (assign a k v0)).
        -- apply IHb.
        -- rewrite lookup_assign. apply String.eqb_neq in Hne. rewrite Hne. reflexivity.
Qed.

Lemma lookup_spread_notin {A} (b : Obj A) :
  forall (a : Obj A) (k : string),
    ~ In k (map fst b) -> lookup (spread a b) k = lookup a k.
Proof.
  induction b as [|[k0 v0] b IH]; intros a k Hn.
  - reflexivity.
  - rewrite spread_cons, IH.
    + rewrite lookup_assign.
      destruct (k0 =? k) eqn:E; [|reflexivity].
      apply String.eqb_eq in E. subst. exfalso. apply Hn. left. reflexivity.
    + intro. apply Hn. right. assumption.
Qed.


Lemma spread_nil_nonempty {A} (b : Obj A) :
  b <> [] -> spread [] b <> [].
Proof.
  destruct b as [|[k v] b]; [congruence|]. intros _ Hs.
  assert (Hl : lookup (spread [] ((k, v) :: b)) k <> None).
  { destruct (lookup_spread_in ((k, v) :: b) [] k) as [v' [_ Hv']].
    - left. reflexivity.
    - rewrite Hv'. discriminate. }
  rewrite Hs in Hl. apply Hl. reflexivity.
Qed.

Lemma filter_length_all {A} (f : A -> bool) (l : list A) :
  List.length (filter f l) = List.length l <-> (forall x, In x l -> f x = true).
Proof.
  induction l as [|a l IH]; simpl.
  - split; [intros _ x []|reflexivity].
  - pose proof (filter_length_le f l) as Hle.
    destruct (f a) eqn:Ea; simpl.
    + split.
      * intros Hlen x [<-|Hx]; [assumption|].
        apply IH; [lia|assumption].
      * intros Hall. f_equal. apply IH. intros x Hx. apply Hall. right. assumption.
    + split.
      * intros Hlen. lia.
      * intros Hall. specialize (Hall a (or_introl eq_refl)). congruence.
Qed.

(* ------------------------------------------------------------------ *)
(** ** What the palette pipeline leaves alone *)

Ltac break_match_hyp H :=
  repeat match type of H with
         | context [match ?x with _ => _ end] => destruct x eqn:?
         end.

Lemma pipeline_frame (H : Host) (st st1 : Engine) (g : Graph) r :
  pipeline H st g = (st1, r) ->
  frame st1 = frame st
  /\ handleCommunitiesRunning (refs st1) = handleCommunitiesRunning (refs st).
Proof.
  unfold pipeline. intro Hp.
  break_match_hyp Hp; inversion Hp; subst; split; reflexivity.
Qed.

Lemma handleCommunities_frame (H : Host) (st : Engine) (g : Graph) :
  frame (outcomeState (handleCommunities H st g)) = frame st.
Proof.
  unfold handleCommunities.
  destruct (handleCommunitiesRunning (refs st)); [reflexivity|].
  destruct (pipeline H (set_handleCommunitiesRunning true st) g) as [st1 [p|]] eqn:Hp;
    apply pipeline_frame in Hp; destruct Hp as [Hf _]; simpl;
    unfold frame in *; simpl in *; exact Hf.
Qed.

Lemma handleCommunities_guard (H : Host) (st : Engine) (g : Graph) :
  handleCommunitiesRunning (refs st) = false ->
  handleCommunitiesRunning (refs (outcomeState (handleCommunities H st g))) = false
  /\ (forall st', handleCommunities H st g <> Skipped st').
Proof.
  intro Hidle. unfold handleCommunities. rewrite Hidle.
  destruct (pipeline H (set_handleCommunitiesRunning true st) g) as [st1 [p|]];
    simpl; split; try reflexivity; intros st' Hs; discriminate Hs.
Qed.

(** C10.  Starting from an idle guard, every invocation of the palette
    pipeline in a sequence of invocations - whatever the host does, raising
    included - actually runs (it is not skipped as a nested call) and leaves
    the guard idle again. *)
Theorem C10_guard_idle_after_every_invocation :
  forall (calls : list (Host * Graph)) (st : Engine),
    handleCommunitiesRunning (refs st) = false ->
    Forall (fun o => handleCommunitiesRunning (refs (outcomeState o)) = false
                     /\ isSkipped o = false)
           (invokeAll st calls).
Proof.
  induction calls as [|[H g] calls IH]; intros st Hidle; simpl.
  - constructor.
  - destruct (handleCommunities_guard H st g Hidle) as [Hafter Hrun].
    constructor.
    + split; [exact Hafter|].
      destruct (handleCommunities H st g) eqn:E; try reflexivity.
      exfalso. eapply Hrun. reflexivity.
    + apply IH. exact Hafter.
Qed.

(** An invocation that raises followed by one that publishes. *)
Lemma C10_witness :
  handleCommunitiesRunning (refs (initialEngine true)) = false
  /\ map isThrew (invokeAll (initialEngine true)
                            [(Demo.raisingHost, emptyGraph); (Demo.host, emptyGraph)])
     = [true; false]
  /\ Forall (fun o => handleCommunitiesRunning (refs (outcomeState o)) = false
                      /\ isSkipped o = false)
            (invokeAll (initialEngine true)
                       [(Demo.raisingHost, emptyGraph); (Demo.host, emptyGraph)]).
Proof.
  split; [reflexivity|]. split; [reflexivity|].
  apply (C10_guard_idle_after_every_invocation
           [(Demo.raisingHost, emptyGraph); (Demo.host, emptyGraph)]
           (initialEngine true)).
  reflexivity.
Defined.

(* ------------------------------------------------------------------ *)
(** ** Classification *)

Lemma numericOf_spec (H : Host) (g : Graph) (key : string) :
  numericOf H g key = true <->
  (forall id attrs, In (id, attrs) (nodes g) ->
                    ToNumber H (getAttr attrs key) <> NaN).
Proof.
  unfold numericOf, numericDataOf.
  rewrite Nat.eqb_eq.
  assert (Hlen : List.length (nodes g)
                 = List.length (map (fun n : string * Attrs =>
                                       (fst n, ToNumber H (getAttr (snd n) key)))
                                    (nodes g)))
    by (symmetry; apply length_map).
  rewrite Hlen.
  rewrite filter_length_all.
  split.
  - intros Hall id attrs Hin Hnan.
    specialize (Hall (id, ToNumber H (getAttr attrs key))).
    rewrite Hnan in Hall. simpl in Hall.
    assert (false = true); [|discriminate].
    apply Hall. apply in_map_iff. exists (id, attrs). simpl. rewrite Hnan. auto.
  - intros Hall [id n] Hin. simpl.
    apply in_map_iff in Hin. destruct Hin as [[id' attrs] [E Hin]].
    simpl in E. inversion E; subst.
    specialize (Hall _ _ Hin).
    destruct (ToNumber H (getAttr attrs key)); simpl; congruence.
Qed.

(** The [isNumeric] flag a run publishes. *)
Lemma pipeline_isNumeric (H : Host) (st st1 : Engine) (g : Graph) (p : Publication) :
  pipeline H st g = (st1, Some p) ->
  newIsNumeric p = negb (colorBy (props st) =? "new_PTU")
                   && numericOf H g (colorBy (props st)).
Proof.
  unfold pipeline. intro Hp.
  break_match_hyp Hp; inversion Hp; subst; simpl;
    repeat match goal with
           | E : _ = true |- _ => rewrite E
           | E : _ = false |- _ => rewrite E
           end; reflexivity.
Qed.

(** C1 (amended).  A published classification is Numeric exactly when the
    colouring key is not the reserved cluster label and no node's value
    converts to [NaN] under [Number]. *)
Theorem C1_numeric_iff_no_NaN :
  forall (H : Host) (st st' : Engine) (g : Graph),
    handleCommunities H st g = Published st' ->
    (isNumeric (hooks st') = true <->
     colorBy (props st) <> "new_PTU"
     /\ (forall id attrs, In (id, attrs) (nodes g) ->
                          ToNumber H (getAttr attrs (colorBy (props st))) <> NaN)).
Proof.
  intros H st st' g Hc.
  unfold handleCommunities in Hc.
  destruct (handleCommunitiesRunning (refs st)); [discriminate|].
  destruct (pipeline H (set_handleCommunitiesRunning true st) g) as [st1 [p|]] eqn:Hp;
    [|discriminate].
  inversion Hc; subst st'. clear Hc.
  apply pipeline_isNumeric in Hp. simpl in Hp |- *.
  rewrite Hp, andb_true_iff, negb_true_iff, numericOf_spec.
  rewrite String.eqb_neq. reflexivity.
Qed.

Lemma C1_witness :
  exists st',
    handleCommunities Demo.host (set_colorBy "score" (initialEngine true))
                      (Demo.graphWith "score" [("n1", Demo.num 1); ("n2", Demo.num 5)])
    = Published st'
    /\ (isNumeric (hooks st') = true <->
        "score" <> "new_PTU"
        /\ (forall id attrs,
               In (id, attrs)
                  (nodes (Demo.graphWith "score" [("n1", Demo.num 1); ("n2", Demo.num 5)])) ->
               ToNumber Demo.host (getAttr attrs "score") <> NaN)).
Proof.
  eexists. split.
  - vm_compute. reflexivity.
  - apply (C1_numeric_iff_no_NaN Demo.host
             (set_colorBy "score" (initialEngine true))).
    vm_compute. reflexivity.
Defined.

(** C1 fails as stated: a key is reported Numeric although one node's value
    is null (absent), and although one node's value is infinite; and the
    reserved cluster label is reported Categorical although every value is
    a finite number. *)
Lemma C1_counterexample :
  Demo.classify Demo.host "score"
    (Demo.graphWith "score" [("n1", Demo.num 1); ("n2", VNull)]) = Some true
  /\ Demo.classify Demo.host "score"
       (Demo.graphWith "score" [("n1", Demo.num 1); ("n2", VNum PInf)]) = Some true
  /\ Demo.classify Demo.host "new_PTU"
       (Demo.graphWith "new_PTU" [("n1", Demo.num 1); ("n2", Demo.num 2)]) = Some false.
Proof. vm_compute. repeat split. Qed.

(* ------------------------------------------------------------------ *)
(** ** Visibility *)




(* ------------------------------------------------------------------ *)
(** ** Graph construction *)

Lemma hasNode_true_iff (g : Graph) (id : string) :
  hasNode g id = true <-> In id (map fst (nodes g)).
Proof.
  unfold hasNode. rewrite existsb_exists. split.
  - intros [n [Hin E]]. apply String.eqb_eq in E. subst.
    apply in_map. exact Hin.
  - intro Hin. apply in_map_iff in Hin. destruct Hin as [n [E Hin]].
    exists n. split; [exact Hin|]. subst. apply String.eqb_refl.
Qed.

Lemma hasNode_false_iff (g : Graph) (id : string) :
  hasNode g id = false <-> ~ In id (map fst (nodes g)).
Proof.
  rewrite <- hasNode_true_iff. destruct (hasNode g id); split; intros; congruence.
Qed.

Lemma existsb_eqb_iff (x : string) (l : list string) :
  existsb (String.eqb x) l = true <-> In x l.
Proof.
  rewrite existsb_exists. split.
  - intros [y [Hin E]]. apply String.eqb_eq in E. subst. exact Hin.
  - intro Hin. exists x. split; [exact Hin|apply String.eqb_refl].
Qed.

Lemma uniq_acc (l : list string) :
  forall acc,
    NoDup acc ->
    let r := fold_left (fun acc x => if existsb (String.eqb x) acc then acc
                                     else acc ++ [x]) l acc in
    NoDup r /\ (forall x, In x r <-> In x acc \/ In x l).
Proof.
  induction l as [|a l IH]; intros acc Hnd; simpl.
  - split; [exact Hnd|]. intro x. tauto.
  - destruct (existsb (String.eqb a) acc) eqn:E.
    + destruct (IH acc Hnd) as [Hn Hin]. split; [exact Hn|].
      intro x. rewrite Hin. apply existsb_eqb_iff in E.
      split; [tauto|]. intros [Hx|[<-|Hx]]; tauto.
    + assert (Hnot : ~ In a acc).
      { intro Hin. apply existsb_eqb_iff in Hin. congruence. }
      assert (Hnd' : NoDup (acc ++ [a])).
      { apply NoDup_app.
        - exact Hnd.
        - constructor; [intros []|constructor].
        - intros x Hx [<-|[]]. exact (Hnot Hx). }
      destruct (IH (acc ++ [a]) Hnd') as [Hn Hin]. split; [exact Hn|].
      intro x. rewrite Hin, in_app_iff. simpl. tauto.
Qed.

Lemma uniq_spec (l : list string) :
  NoDup (uniq l) /\ (forall x, In x (uniq l) <-> In x l).
Proof.
  destruct (uniq_acc l [] (NoDup_nil _)) as [Hn Hin].
  split; [exact Hn|]. intro x. unfold uniq. rewrite Hin. simpl. tauto.
Qed.

Lemma lookup_app_fresh {A} (l : Obj A) (k : string) (v : A) :
  ~ In k (map fst l) -> lookup (l ++ [(k, v)]) k = Some v.
Proof.
  induction l as [|[k0 v0] l IH]; simpl; intro Hn.
  - rewrite String.eqb_refl. reflexivity.
  - destruct (k0 =? k) eqn:E.
    + apply String.eqb_eq in E. subst. exfalso. apply Hn. left. reflexivity.
    + apply IH. intro. apply Hn. right. assumption.
Qed.

Lemma lookup_app_old {A} (l : Obj A) (k k' : string) (v : A) :
  In k' (map fst l) -> lookup (l ++ [(k, v)]) k' = lookup l k'.
Proof.
  induction l as [|[k0 v0] l IH]; simpl; intro Hin.
  - contradiction.
  - destruct (k0 =? k') eqn:E; [reflexivity|].
    apply IH. destruct Hin as [->|Hin]; [|exact Hin].
    rewrite String.eqb_refl in E. discriminate.
Qed.

(** Adding pairwise distinct fresh ids never raises; the graph gains
    exactly those nodes, each with the attributes [nodeAttrsOf] gives it. *)
Lemma addNodes_from (H : Host) (meta : option (Obj Attrs)) (ids : list string) :
  forall (g0 : Graph) (w0 : nat),
    NoDup ids ->
    (forall id, In id ids -> ~ In id (map fst (nodes g0))) ->
    exists g w,
      fold_left (addNodeStep H meta) ids (Some (g0, w0)) = Some (g, w)
      /\ map fst (nodes g) = map fst (nodes g0) ++ ids
      /\ edges g = edges g0
      /\ (forall id, In id ids ->
            exists wi, lookup (nodes g) id = Some (fst (nodeAttrsOf H meta wi id))).
Proof.
  induction ids as [|a ids IH]; intros g0 w0 Hnd Hfresh; simpl.
  - exists g0, w0. rewrite app_nil_r. repeat split; auto. intros id [].
  - inversion Hnd as [|? ? Ha Hnd']; subst.
    unfold addNode.
    assert (Hno : hasNode g0 a = false).
    { apply hasNode_false_iff. apply Hfresh. left. reflexivity. }
    rewrite Hno.
    set (g1 := {| nodes := nodes g0 ++ [(a, fst (nodeAttrsOf H meta w0 a))];
                  edges := edges g0 |}).
    destruct (IH g1 (snd (nodeAttrsOf H meta w0 a)) Hnd') as [g [w [Hf [Hk [He Hl]]]]].
    { intros id Hid. unfold g1. simpl. rewrite map_app, in_app_iff. simpl.
      intros [Hin|[<-|[]]].
      - apply (Hfresh id); [right; exact Hid|exact Hin].
      - exact (Ha Hid). }
    exists g, w. split; [exact Hf|]. split.
    + rewrite Hk. unfold g1. simpl. rewrite map_app. simpl.
      rewrite <- app_assoc. reflexivity.
    + split; [rewrite He; reflexivity|].
      intros id [<-|Hid]; [|apply Hl; exact Hid].
      exists w0.
      (* the node added first is still read back at the end *)
      assert (Hkeep : forall ids' gA wA gB wB,
                 fold_left (addNodeStep H meta) ids' (Some (gA, wA)) = Some (gB, wB) ->
                 forall k, In k (map fst (nodes gA)) ->
                           lookup (nodes gB) k = lookup (nodes gA) k).
      { clear. induction ids' as [|b ids' IH']; intros gA wA gB wB Hf k Hk; simpl in Hf.
        - inversion Hf. reflexivity.
        - unfold addNode in Hf. destruct (hasNode gA b) eqn:Eb.
          + exfalso. clear - Hf. induction ids'; simpl in Hf; [discriminate|auto].
          + erewrite IH'; [|exact Hf|].
            * simpl. apply lookup_app_old. exact Hk.
            * simpl. rewrite map_app, in_app_iff. left. exact Hk. }
      rewrite (Hkeep _ _ _ _ _ Hf a).
      * unfold g1. simpl. apply lookup_app_fresh.
        apply Hfresh. left. reflexivity.
      * unfold g1. simpl. rewrite map_app, in_app_iff. right. left. reflexivity.
Qed.

Lemma tryAddEdge_nodes (g : Graph) (e : Edge) :
  nodes (tryAddEdge g e) = nodes g.
Proof.
  unfold tryAddEdge, addEdge.
  destruct (hasNode g (source e) && hasNode g (target e)
            && negb (hasEdge g (source e) (target e))); reflexivity.
Qed.

Lemma fold_tryAddEdge_nodes (es : list Edge) :
  forall g, nodes (fold_left tryAddEdge es g) = nodes g.
Proof.
  induction es as [|e es IH]; intro g; simpl; [reflexivity|].
  rewrite IH. apply tryAddEdge_nodes.
Qed.

Lemma endpoints_of_rows (rows : list EdgeRow) (id : string) :
  In id (flat_map (fun e => [source e; target e]) (map edgeOfRow rows)) <->
  exists r, In r rows /\ (r_source r = id \/ r_target r = id).
Proof.
  rewrite in_flat_map. split.
  - intros [e [He Hid]]. apply in_map_iff in He. destruct He as [r [<- Hr]].
    exists r. split; [exact Hr|]. simpl in Hid. tauto.
  - intros [r [Hr Hid]]. exists (edgeOfRow r). split.
    + apply in_map. exact Hr.
    + simpl. tauto.
Qed.

(** The attributes of a node that has no metadata row. *)
Lemma nodeAttrsOf_default (H : Host) (meta : option (Obj Attrs)) (w : nat) (id : string) :
  match meta with Some m => lookup m id | None => None end = None ->
  fst (nodeAttrsOf H meta w id)
  = [("x", VNum (Fin (random H w * 10)));
     ("y", VNum (Fin (random H (S w) * 10)));
     ("size", VNum (Fin (7 # 10)));
     ("label", VStr id)].
Proof.
  intro Hnone. unfold nodeAttrsOf.
  destruct meta as [m|]; [rewrite Hnone|]; reflexivity.
Qed.

(** [buildGraph] never raises: the keys of the graph it returns are the
    de-duplicated endpoints, in first-seen order, and each node carries the
    attributes [nodeAttrsOf] computed for it. *)
Lemma buildGraph_spec (H : Host) (st : Engine) :
  exists g w,
    buildGraph H st = Some (g, w)
    /\ map fst (nodes g)
       = uniq (flat_map (fun e => [source e; target e])
                        (map edgeOfRow (edgeRows (props st))))
    /\ (forall id, In id (map fst (nodes g)) ->
          exists wi, lookup (nodes g) id
                     = Some (fst (nodeAttrsOf H (metadataRef (refs st)) wi id))).
Proof.
  set (ids := uniq (flat_map (fun e => [source e; target e])
                             (map edgeOfRow (edgeRows (props st))))).
  destruct (uniq_spec (flat_map (fun e => [source e; target e])
                                (map edgeOfRow (edgeRows (props st)))))
    as [Hnd _].
  destruct (addNodes_from H (metadataRef (refs st)) ids emptyGraph
                          (oracle (world st)) Hnd) as [g0 [w [Hf [Hk [_ Hl]]]]].
  { intros id _ []. }
  simpl in Hk.
  set (g := if edgeMode (props st) =? "all"
            then fold_left tryAddEdge (map edgeOfRow (edgeRows (props st))) g0
            else g0).
  assert (Hnodes : nodes g = nodes g0).
  { unfold g. destruct (edgeMode (props st) =? "all");
      [apply fold_tryAddEdge_nodes|reflexivity]. }
  exists g, w. split.
  - unfold buildGraph, addNodes. fold ids. rewrite Hf. reflexivity.
  - rewrite Hnodes. split; [exact Hk|].
    intros id Hid. rewrite Hk in Hid. exact (Hl id Hid).
Qed.

(** The renderer is created on the graph [buildGraph] returns. *)
Lemma loadFromEdgeList_sigma (H : Host) (st : Engine) (g : Graph) (w : nat) :
  buildGraph H st = Some (g, w) ->
  sigmaInstance (refs (fst (loadFromEdgeList H st))) = Some g
  /\ allEdgesRef (refs (fst (loadFromEdgeList H st)))
     = map edgeOfRow (edgeRows (props st)).
Proof.
  intro Hb. unfold loadFromEdgeList.
  change (buildGraph H (set_allEdgesRef (map edgeOfRow (edgeRows (props st))) st))
    with (buildGraph H st).
  rewrite Hb. unfold renderGraph.
  match goal with
  | |- context [handleCommunities H ?s g] =>
      pose proof (handleCommunities_frame H s g) as Hfr;
      destruct (handleCommunities H s g); simpl in *;
      unfold frame in Hfr; simpl in Hfr; split; congruence
  end.
Qed.

(** C9.  [loadFromEdgeList] always builds a graph, and hands it to the
    renderer; its nodes are pairwise distinct and are exactly the ids that
    occur as source or target of an edge row.  Hence a metadata row whose id
    is no endpoint yields no node, while an endpoint without metadata row is
    a node carrying only two random coordinates, the default size and its
    id as label. *)
Theorem C9_nodes_are_exactly_edge_endpoints :
  forall (H : Host) (st : Engine),
    exists g w,
      buildGraph H st = Some (g, w)
      /\ sigmaInstance (refs (fst (loadFromEdgeList H st))) = Some g
      /\ NoDup (map fst (nodes g))
      /\ (forall id, In id (map fst (nodes g)) <->
                     exists r, In r (edgeRows (props st))
                               /\ (r_source r = id \/ r_target r = id))
      /\ (forall row, In row (metadataRows (props st)) ->
            (forall r, In r (edgeRows (props st)) ->
                       r_source r <> toKey H (getAttr row "id")
                       /\ r_target r <> toKey H (getAttr row "id")) ->
            hasNode g (toKey H (getAttr row "id")) = false)
      /\ (forall id, In id (map fst (nodes g)) ->
            match metadataRef (refs st) with
            | Some m => lookup m id
            | None => None
            end = None ->
            exists wi,
              lookup (nodes g) id
              = Some [("x", VNum (Fin (random H wi * 10)));
                      ("y", VNum (Fin (random H (S wi) * 10)));
                      ("size", VNum (Fin (7 # 10)));
                      ("label", VStr id)]).
Proof.
  intros H st.
  destruct (buildGraph_spec H st) as [g [w [Hb [Hk Hl]]]].
  destruct (uniq_spec (flat_map (fun e => [source e; target e])
                                (map edgeOfRow (edgeRows (props st)))))
    as [Hnd Hin].
  assert (Hkeys : forall id, In id (map fst (nodes g)) <->
                             exists r, In r (edgeRows (props st))
                                       /\ (r_source r = id \/ r_target r = id)).
  { intro id. rewrite Hk, Hin. apply endpoints_of_rows. }
  exists g, w. split; [exact Hb|].
  split; [exact (proj1 (loadFromEdgeList_sigma H st g w Hb))|].
  split; [rewrite Hk; exact Hnd|].
  split; [exact Hkeys|]. split.
  - intros row Hrow Hno. apply hasNode_false_iff. rewrite Hkeys.
    intros [r [Hr [E|E]]]; destruct (Hno r Hr) as [H1 H2]; congruence.
  - intros id Hid Hmeta.
    destruct (Hl id Hid) as [wi Hwi]. exists wi. rewrite Hwi.
    rewrite (nodeAttrsOf_default H _ wi id Hmeta). reflexivity.
Qed.

(* ------------------------------------------------------------------ *)
(** ** The numeric palette *)















(* ------------------------------------------------------------------ *)
(** ** Edge materialisation *)

Lemma hasEdge_true_iff (g : Graph) (s t : string) :
  hasEdge g s t = true <-> In (s, t) (map endpointsOf (edges g)).
Proof.
  unfold hasEdge. rewrite existsb_exists, in_map_iff. split.
  - intros [e [Hin E]]. apply andb_true_iff in E. destruct E as [E1 E2].
    apply String.eqb_eq in E1. apply String.eqb_eq in E2.
    exists e. unfold endpointsOf. subst. auto.
  - intros [e [E Hin]]. unfold endpointsOf in E. inversion E; subst.
    exists e. rewrite !String.eqb_refl. auto.
Qed.

Lemma tryAddEdge_cases (g : Graph) (e : Edge) :
  hasNode g (source e) = true ->
  hasNode g (target e) = true ->
  nodes (tryAddEdge g e) = nodes g
  /\ ((hasEdge g (source e) (target e) = true /\ edges (tryAddEdge g e) = edges g)
      \/ (hasEdge g (source e) (target e) = false
          /\ edges (tryAddEdge g e) = edges g ++ [e])).
Proof.
  intros Hs Ht. split; [apply tryAddEdge_nodes|].
  unfold tryAddEdge, addEdge. rewrite Hs, Ht. simpl.
  destruct (hasEdge g (source e) (target e)); simpl.
  - left. auto.
  - right. split; [reflexivity|]. destruct e; reflexivity.
Qed.

Lemma covers_spec (es : list Edge) (g : Graph) :
  covers es g = true <->
  (forall e, In e es -> hasNode g (source e) = true /\ hasNode g (target e) = true).
Proof.
  unfold covers. rewrite forallb_forall. split; intros Hc e He.
  - apply andb_true_iff. apply Hc. exact He.
  - apply andb_true_iff. apply Hc. exact He.
Qed.

Lemma covers_same_nodes (es : list Edge) (g g' : Graph) :
  map fst (nodes g') = map fst (nodes g) -> covers es g' = covers es g.
Proof.
  intro Hn.
  assert (Hh : forall id, hasNode g' id = hasNode g id).
  { intro id. destruct (hasNode g id) eqn:E.
    - apply hasNode_true_iff. rewrite Hn. apply hasNode_true_iff. exact E.
    - apply hasNode_false_iff. rewrite Hn. apply hasNode_false_iff. exact E. }
  unfold covers. induction es as [|e es IH]; simpl; [reflexivity|].
  rewrite !Hh, IH. reflexivity.
Qed.

(** The loop of [updateEdgesForHighlight], from any graph that already
    holds some of the touching edges. *)
Lemma materialize_from (node : string) (es : list Edge) :
  forall g,
    covers es g = true ->
    NoDup (map endpointsOf (edges g)) ->
    let g' := fold_left (fun g e => if touches node e then tryAddEdge g e else g) es g in
    nodes g' = nodes g
    /\ (forall e, In e (edges g') ->
                  In e (edges g) \/ (In e es /\ touches node e = true))
    /\ (forall p, In p (map endpointsOf (edges g)) ->
                  In p (map endpointsOf (edges g')))
    /\ (forall e, In e es -> touches node e = true ->
                  hasEdge g' (source e) (target e) = true)
    /\ NoDup (map endpointsOf (edges g')).
Proof.
  induction es as [|a es IH]; intros g Hcov Hnd; simpl.
  - repeat split; auto; intros e [].
  - simpl in Hcov. apply andb_true_iff in Hcov. destruct Hcov as [Ha Hcov].
    apply andb_true_iff in Ha. destruct Ha as [Has Hat].
    set (g1 := if touches node a then tryAddEdge g a else g).
    assert (Hn1 : nodes g1 = nodes g).
    { unfold g1. destruct (touches node a); [apply tryAddEdge_nodes|reflexivity]. }
    assert (Hcov1 : covers es g1 = true).
    { rewrite (covers_same_nodes es g g1); [exact Hcov|]. rewrite Hn1. reflexivity. }
    assert (Hstep : (forall e, In e (edges g1) ->
                               In e (edges g) \/ (e = a /\ touches node a = true))
                    /\ (forall p, In p (map endpointsOf (edges g)) ->
                                  In p (map endpointsOf (edges g1)))
                    /\ (touches node a = true ->
                        hasEdge g1 (source a) (target a) = true)
                    /\ NoDup (map endpointsOf (edges g1))).
    { unfold g1. destruct (touches node a) eqn:Et.
      - destruct (tryAddEdge_cases g a Has Hat) as [_ [[Hhas He]|[Hhas He]]];
          rewrite He.
        + repeat split; auto.
          intros _. rewrite hasEdge_true_iff, He. apply hasEdge_true_iff. exact Hhas.
        + repeat split.
          * intros e Hin. apply in_app_iff in Hin. destruct Hin as [Hin|[<-|[]]]; auto.
          * intros p Hp. rewrite map_app, in_app_iff. left. exact Hp.
          * intros _. rewrite hasEdge_true_iff, He, map_app, in_app_iff.
            right. left. reflexivity.
          * rewrite map_app. apply NoDup_app; [exact Hnd| |].
            -- simpl. constructor; [intros []|constructor].
            -- intros p Hp [<-|[]].
               apply hasEdge_true_iff in Hp. congruence.
      - repeat split; auto. intros; discriminate. }
    destruct Hstep as [S1 [S2 [S3 S4]]].
    destruct (IH g1 Hcov1 S4) as [I1 [I2 [I3 [I4 I5]]]].
    split; [rewrite I1; exact Hn1|]. split; [|split; [|split]].
    + intros e He. destruct (I2 e He) as [Hg1|[Hes Ht]].
      * destruct (S1 e Hg1) as [Hg|[-> Ht]]; [left; exact Hg|].
        right. split; [left; reflexivity|exact Ht].
      * right. split; [right; exact Hes|exact Ht].
    + intros p Hp. apply I3. apply S2. exact Hp.
    + intros e [<-|He] Ht.
      * apply hasEdge_true_iff. apply I3. apply hasEdge_true_iff. apply S3. exact Ht.
      * apply I4; assumption.
    + exact I5.
Qed.

Lemma updateEdgesForHighlight_exact (node : string) (st : Engine) (g : Graph) :
  sigmaInstance (refs st) = Some g ->
  covers (allEdgesRef (refs st)) g = true ->
  exists g',
    sigmaInstance (refs (updateEdgesForHighlight node st)) = Some g'
    /\ nodes g' = nodes g
    /\ allEdgesRef (refs (updateEdgesForHighlight node st)) = allEdgesRef (refs st)
    /\ materializedExactly (allEdgesRef (refs st)) node g'.
Proof.
  intros Hg Hcov. unfold updateEdgesForHighlight. rewrite Hg.
  eexists. split; [reflexivity|].
  destruct (materialize_from node (allEdgesRef (refs st)) (clearEdges g))
    as [M1 [M2 [_ [M4 M5]]]].
  - rewrite (covers_same_nodes _ g (clearEdges g)); [exact Hcov|reflexivity].
  - simpl. constructor.
  - split; [exact M1|]. split; [reflexivity|].
    split; [|split].
    + intros e He. destruct (M2 e He) as [[]|Hok]. exact Hok.
    + exact M4.
    + exact M5.
Qed.

(** With a non-empty selection in mode none with dynamic edges on, the
    effect is [updateEdgesForHighlight], whatever the highlight set. *)
Lemma dynamicEdgesEffect_selected (st : Engine) (g : Graph) (node : string) :
  sigmaInstance (refs st) = Some g ->
  edgeMode (props st) = "none" ->
  enableDynamicEdges (props st) = true ->
  highlightedNode (props st) = Some node ->
  node <> "" ->
  dynamicEdgesEffect st = Some (updateEdgesForHighlight node st).
Proof.
  intros Hg Hm He Hsel Hne. unfold dynamicEdgesEffect.
  rewrite Hg, Hm, He, Hsel. simpl.
  apply String.eqb_neq in Hne. rewrite Hne. reflexivity.
Qed.

Lemma optStrEqb_false (a : string) (o : option string) :
  o <> Some a -> optStrEqb (Some a) o = false.
Proof.
  intro Hne. destruct o as [b|]; simpl; [|reflexivity].
  apply String.eqb_neq. intro E. apply Hne. subst. reflexivity.
Qed.

(** One change of the selection to a non-empty id, in mode none with
    dynamic edges on. *)
Lemma select_exact (st : Engine) (g : Graph) (node : string) :
  sigmaInstance (refs st) = Some g ->
  covers (allEdgesRef (refs st)) g = true ->
  edgeMode (props st) = "none" ->
  enableDynamicEdges (props st) = true ->
  node <> "" ->
  highlightedNode (props st) <> Some node ->
  exists st' g',
    select (Some node) st = Some st'
    /\ sigmaInstance (refs st') = Some g'
    /\ nodes g' = nodes g
    /\ allEdgesRef (refs st') = allEdgesRef (refs st)
    /\ props st' = props (set_highlightedNode (Some node) st)
    /\ hooks st' = hooks st
    /\ materializedExactly (allEdgesRef (refs st)) node g'.
Proof.
  intros Hg Hcov Hm He Hne Hsel.
  unfold select. rewrite (optStrEqb_false node _ Hsel).
  rewrite (dynamicEdgesEffect_selected (set_highlightedNode (Some node) st) g node);
    try assumption; try reflexivity.
  destruct (updateEdgesForHighlight_exact node (set_highlightedNode (Some node) st) g)
    as [g' [Hs [Hn [Ha Hex]]]]; try assumption.
  exists (updateEdgesForHighlight node (set_highlightedNode (Some node) st)), g'.
  split; [reflexivity|]. split; [exact Hs|]. split; [exact Hn|].
  split; [exact Ha|].
  unfold updateEdgesForHighlight. simpl. rewrite Hg.
  split; [reflexivity|]. split; [reflexivity|exact Hex].
Qed.

(** What the policy does achieve.  With EdgeMode none, dynamic edges
    enabled and a live graph that contains the endpoints of the known edges:
    when the selection changes to a node A the live graph holds exactly the
    known edges with A as source or target (one per source-target pair),
    whatever the highlight set, which is left untouched; when the selection
    then changes to B it holds exactly those of B. *)
Lemma selection_change_materializes_touching_edges :
  forall (H : Host) (st : Engine) (g : Graph) (A B : string),
    sigmaInstance (refs st) = Some g ->
    covers (allEdgesRef (refs st)) g = true ->
    edgeMode (props st) = "none" ->
    enableDynamicEdges (props st) = true ->
    A <> "" -> B <> "" ->
    highlightedNode (props st) <> Some A ->
    A <> B ->
    exists stA gA stB gB,
      step H st (SetHighlightedNode (Some A)) = Some stA
      /\ sigmaInstance (refs stA) = Some gA
      /\ highlightedComms (hooks stA) = highlightedComms (hooks st)
      /\ materializedExactly (allEdgesRef (refs st)) A gA
      /\ step H stA (SetHighlightedNode (Some B)) = Some stB
      /\ sigmaInstance (refs stB) = Some gB
      /\ materializedExactly (allEdgesRef (refs st)) B gB.
Proof.
  intros H st g A B Hg Hcov Hm He HA HB Hsel HAB.
  destruct (select_exact st g A Hg Hcov Hm He HA Hsel)
    as [stA [gA [SA [GA [NA [EA [PA [KA XA]]]]]]]].
  assert (HcovA : covers (allEdgesRef (refs stA)) gA = true).
  { rewrite EA, (covers_same_nodes _ g gA); [exact Hcov|]. rewrite NA. reflexivity. }
  assert (HselA : highlightedNode (props stA) <> Some B).
  { rewrite PA. simpl. intro E. inversion E. contradiction. }
  destruct (select_exact stA gA B GA HcovA) as [stB [gB [SB [GB [_ [_ [_ [_ XB]]]]]]]];
    try assumption.
  { rewrite PA. exact Hm. }
  { rewrite PA. exact He. }
  exists stA, gA, stB, gB. simpl.
  split; [exact SA|]. split; [exact GA|].
  split; [rewrite KA; reflexivity|]. split; [exact XA|].
  split; [exact SB|]. split; [exact GB|].
  rewrite EA in XB. exact XB.
Qed.

(** The three-node path: selecting n1, then n2. *)
Example selection_change_on_path :
  exists stA gA stB gB,
    step Demo.host Demo.engine3 (SetHighlightedNode (Some "n1")) = Some stA
    /\ sigmaInstance (refs stA) = Some gA
    /\ highlightedComms (hooks stA) = highlightedComms (hooks Demo.engine3)
    /\ materializedExactly (allEdgesRef (refs Demo.engine3)) "n1" gA
    /\ step Demo.host stA (SetHighlightedNode (Some "n2")) = Some stB
    /\ sigmaInstance (refs stB) = Some gB
    /\ materializedExactly (allEdgesRef (refs Demo.engine3)) "n2" gB.
Proof.
  apply (selection_change_materializes_touching_edges
           Demo.host Demo.engine3 Demo.graph3 "n1" "n2");
    vm_compute; (reflexivity || discriminate).
Qed.

(** C3 fails on the code.  Select n1 while every edge is shown, then switch
    EdgeMode to none: the dynamic-edge effect materialises the edges of n1
    on the graph that the load effect, declared after it and run in the
    same commit, throws away for a fresh graph without edges.  EdgeMode is
    none, dynamic edges are enabled, n1 is selected and touches a known
    edge, yet nothing is materialised.  The same happens when the rows are
    reloaded while n1 stays selected. *)
Theorem C3_selection_edges_lost_when_graph_is_rebuilt :
  (exists st g e,
      run Demo.host (initialEngine true)
          [SetRows Demo.edges3 Demo.meta3; SetEdgeMode "all";
           SetHighlightedNode (Some "n1"); SetEdgeMode "none"]
      = Some st
      /\ edgeMode (props st) = "none"
      /\ enableDynamicEdges (props st) = true
      /\ highlightedNode (props st) = Some "n1"
      /\ sigmaInstance (refs st) = Some g
      /\ In e (allEdgesRef (refs st)) /\ touches "n1" e = true
      /\ edges g = [])
  /\ (exists st g e,
         run Demo.host (initialEngine true)
             [SetRows Demo.edges3 Demo.meta3; SetHighlightedNode (Some "n1");
              SetRows Demo.edges3 Demo.meta3]
         = Some st
         /\ edgeMode (props st) = "none"
         /\ enableDynamicEdges (props st) = true
         /\ highlightedNode (props st) = Some "n1"
         /\ sigmaInstance (refs st) = Some g
         /\ In e (allEdgesRef (refs st)) /\ touches "n1" e = true
         /\ edges g = []).
Proof.
  split.
  - eexists. eexists. eexists.
    split; [vm_compute; reflexivity|].
    split; [vm_compute; reflexivity|].
    split; [vm_compute; reflexivity|].
    split; [vm_compute; reflexivity|].
    split; [vm_compute; reflexivity|].
    split; [vm_compute; left; reflexivity|].
    split; vm_compute; reflexivity.
  - eexists. eexists. eexists.
    split; [vm_compute; reflexivity|].
    split; [vm_compute; reflexivity|].
    split; [vm_compute; reflexivity|].
    split; [vm_compute; reflexivity|].
    split; [vm_compute; reflexivity|].
    split; [vm_compute; left; reflexivity|].
    split; vm_compute; reflexivity.
Qed.

(** By contrast, switching dynamic edges off and on again with n1 selected
    does bring the edges of n1 back: that effect runs on the graph that
    stays. *)
Example reenabling_dynamic_edges_rematerializes :
  exists st g,
    run Demo.host (initialEngine true)
        [SetRows Demo.edges3 Demo.meta3; SetHighlightedNode (Some "n1");
         SetEnableDynamicEdges false; SetEnableDynamicEdges true]
    = Some st
    /\ sigmaInstance (refs st) = Some g
    /\ map endpointsOf (edges g) = [("n1", "n2")].
Proof.
  eexists. eexists.
  split; [vm_compute; reflexivity|].
  split; vm_compute; reflexivity.
Qed.

(* ------------------------------------------------------------------ *)
(** ** Visibility in numeric mode *)

(** In numeric mode the visibility effect changes nothing: a toggle is
    accepted into the state but no hidden flag is written. *)
Lemma visibilityEffect_numeric_noop (st : Engine) :
  isNumeric (hooks st) = true -> visibilityEffect st = st.
Proof.
  intro Hn. unfold visibilityEffect. rewrite Hn.
  destruct (sigmaInstance (refs st)); [|reflexivity].
  destruct (palette (hooks st)); reflexivity.
Qed.

(** C6 fails on the code.  Load the three plasmids coloured by group, hide
    group g1 with its legend toggle, then switch the colouring key to the
    numeric score: the mode is Numeric, yet node n1 still carries the
    hidden flag written in Categorical mode, and the node reducer passes it
    on to the renderer. *)
Theorem C6_hidden_flag_outlives_categorical_mode :
  exists st g attrs,
    run Demo.host (initialEngine true)
        [SetRows Demo.edges3 Demo.meta3; ToggleComm (VStr "g1"); SetColorBy "score"]
    = Some st
    /\ isNumeric (hooks st) = true
    /\ sigmaInstance (refs st) = Some g
    /\ lookup (nodes g) "n1" = Some attrs
    /\ getAttr attrs "hidden" = VBool true
    /\ getAttr (nodeReducer Demo.host st "n1" attrs) "hidden" = VBool true.
Proof.
  eexists. eexists. eexists.
  split; [vm_compute; reflexivity|].
  split; [vm_compute; reflexivity|].
  split; [vm_compute; reflexivity|].
  split; [vm_compute; reflexivity|].
  split; vm_compute; reflexivity.
Qed.

(* ------------------------------------------------------------------ *)
(** ** Sets of values and the categorical palette *)





















Lemma nodeReducer_hidden (H : Host) (st : Engine) (node : string) (data : Attrs) :
  getAttr (nodeReducer H st node data) "hidden" = getAttr data "hidden".
Proof.
  unfold nodeReducer, getAttr.
  rewrite lookup_assign. simpl.
  unfold spread. simpl. rewrite !lookup_assign. simpl. reflexivity.
Qed.




(* ------------------------------------------------------------------ *)
(** ** When the colour sources fail *)











(* ------------------------------------------------------------------ *)
(** ** The "network ready" notification *)

Ltac break_goal :=
  repeat match goal with
         | |- context [match ?x with _ => _ end] => destruct x eqn:?
         end.

Lemma readyView_handleCommunities (H : Host) (st : Engine) (g : Graph) :
  readyView (outcomeState (handleCommunities H st g)) = readyView st.
Proof.
  pose proof (handleCommunities_frame H st g) as Hfr.
  unfold frame in Hfr. unfold readyView, readyPending. congruence.
Qed.

Lemma readyView_loadFromEdgeList (H : Host) (st : Engine) :
  readyView (fst (loadFromEdgeList H st)) = readyView st.
Proof.
  unfold loadFromEdgeList.
  destruct (buildGraph H _) as [[g w]|]; [|reflexivity].
  unfold renderGraph.
  match goal with
  | |- context [handleCommunities H ?s g] =>
      pose proof (readyView_handleCommunities H s g) as Hv;
      destruct (handleCommunities H s g); simpl in *; rewrite Hv; reflexivity
  end.
Qed.

Lemma readyView_loadEffect (H : Host) (st : Engine) :
  readyView (fst (loadEffect H st)) = readyView st.
Proof.
  unfold loadEffect.
  destruct (edgeRows (props st)); [reflexivity|].
  destruct (metadataRows (props st)); [reflexivity|].
  apply readyView_loadFromEdgeList.
Qed.

Lemma readyView_recolorEffect (H : Host) (st st' : Engine) (p : bool) :
  recolorEffect H st = Some (st', p) -> readyView st' = readyView st.
Proof.
  unfold recolorEffect.
  destruct (sigmaInstance (refs st)) as [g|]; [|intro E; inversion E; reflexivity].
  pose proof (readyView_handleCommunities H st g) as Hv.
  destruct (handleCommunities H st g); intro E; inversion E; subst; exact Hv.
Qed.

Lemma readyView_visibilityEffect (st : Engine) :
  readyView (visibilityEffect st) = readyView st.
Proof. unfold visibilityEffect. break_goal; reflexivity. Qed.

Lemma readyView_updateEdgesForHighlight (node : string) (st : Engine) :
  readyView (updateEdgesForHighlight node st) = readyView st.
Proof. unfold updateEdgesForHighlight. break_goal; reflexivity. Qed.

Lemma readyView_clearWhenDisabledEffect (st : Engine) :
  readyView (clearWhenDisabledEffect st) = readyView st.
Proof. unfold clearWhenDisabledEffect. break_goal; reflexivity. Qed.

Lemma readyView_dynamicEdgesEffect (st st' : Engine) :
  dynamicEdgesEffect st = Some st' -> readyView st' = readyView st.
Proof.
  unfold dynamicEdgesEffect, updateEdgesForHighlight.
  destruct (sigmaInstance (refs st)) as [g|]; [|intro E; inversion E; reflexivity].
  destruct (communityEdges st g);
    break_goal; simpl; intro E; inversion E; reflexivity.
Qed.

Lemma readyView_select (n : option string) (st st' : Engine) :
  readyView (set_highlightedNode n st) = readyView st ->
  select n st = Some st' -> readyView st' = readyView st.
Proof.
  intros Hs. unfold select.
  destruct (optStrEqb n (highlightedNode (props st))).
  - intro E. inversion E. reflexivity.
  - intro E. apply readyView_dynamicEdgesEffect in E. congruence.
Qed.

(** Scheduling a timer that does not belong to the notification. *)
Lemma readyView_setTimeout_update (node : string) (delay : nat) (st : Engine) :
  readyView (setTimeout (UpdateEdges node) delay st) = readyView st.
Proof.
  unfold readyView, readyPending, setTimeout. simpl.
  rewrite filter_app. simpl. rewrite app_nil_r. reflexivity.
Qed.

Lemma readyView_afterPublication (p : bool) (st : Engine) :
  Trans (readyView st) (readyView (afterPublication p st)).
Proof.
  unfold afterPublication. destruct p; [|apply TSame].
  rewrite <- (readyView_visibilityEffect st).
  generalize (visibilityEffect st). clear st. intro st.
  unfold readyEffect.
  destruct (sigmaInstance (refs st)); [|apply TSame].
  destruct (palette (hooks st)); [apply TSame|].
  destruct (isInitialLoadRef (refs st)) eqn:Ei; [|apply TSame].
  replace (readyView (setTimeout (CallNetworkReady (onNetworkReady (props st))) 100
                                 (set_isInitialLoadRef false st)))
    with {| rvInitial := false;
            rvCalled := rvCalled (readyView st);
            rvPending := rvPending (readyView st)
                         ++ [CallNetworkReady (rvCallback (readyView st))];
            rvNotified := rvNotified (readyView st);
            rvCallback := rvCallback (readyView st) |}.
  - apply TSchedule. exact Ei.
  - unfold readyView, readyPending, setTimeout. simpl.
    rewrite filter_app, map_app. reflexivity.
Qed.

Lemma pickTimer_none (ts : list Timer) : pickTimer ts = None -> ts = [].
Proof.
  destruct ts as [|t ts]; [reflexivity|]. simpl.
  destruct (pickTimer ts) as [[t' rest']|]; [|discriminate].
  destruct (Nat.leb (due t) (due t')); discriminate.
Qed.

(** Removing the picked timer from the queue, seen through a filter. *)
Lemma pickTimer_filter (f : Timer -> bool) (ts : list Timer) :
  forall t rest,
    pickTimer ts = Some (t, rest) ->
    (f t = false -> filter f rest = filter f ts)
    /\ (f t = true ->
        exists l1 l2, filter f ts = l1 ++ t :: l2 /\ filter f rest = l1 ++ l2).
Proof.
  induction ts as [|a ts IH]; intros t rest Hp; simpl in Hp; [discriminate|].
  destruct (pickTimer ts) as [[t' rest']|] eqn:Ep.
  - destruct (Nat.leb (due a) (due t')); inversion Hp; subst; simpl.
    + split.
      * intro Hf. rewrite Hf. reflexivity.
      * intro Hf. rewrite Hf. exists []. eexists. split; reflexivity.
    + destruct (IH t rest' eq_refl) as [I1 I2]. split.
      * intro Hf. rewrite (I1 Hf). reflexivity.
      * intro Hf. destruct (I2 Hf) as [l1 [l2 [E1 E2]]].
        rewrite E1, E2. destruct (f a).
        -- exists (a :: l1), l2. auto.
        -- exists l1, l2. auto.
  - apply pickTimer_none in Ep. subst. inversion Hp; subst. simpl. split.
    + intro Hf. rewrite Hf. reflexivity.
    + intro Hf. rewrite Hf. exists [], []. auto.
Qed.

Lemma tick_trans (H : Host) (st st' : Engine) :
  step H st Tick = Some st' -> Trans (readyView st) (readyView st').
Proof.
  simpl. destruct (pickTimer (timers (world st))) as [[t rest]|] eqn:Ep.
  2: { intro E. inversion E. apply TSame. }
  intro E. inversion E as [E']. clear E E'.
  destruct (pickTimer_filter isReadyTask _ _ _ Ep) as [Hout Hin].
  set (st0 := set_clock (Nat.max (clock (world st)) (due t)) (set_timers rest st)).
  destruct (task t) as [c| |node] eqn:Et; simpl.
  - (* the first timer: callNetworkReady *)
    destruct Hin as [l1 [l2 [E1 E2]]]; [unfold isReadyTask; rewrite Et; reflexivity|].
    assert (Hpend : rvPending (readyView st)
                    = map task l1 ++ CallNetworkReady c :: map task l2).
    { simpl. unfold readyPending. rewrite E1, map_app. simpl. rewrite Et. reflexivity. }
    pose proof (TCall (readyView st) c (map task l1) (map task l2) Hpend) as HT.
    match goal with
    | |- Trans _ ?r' =>
        match type of HT with
        | Trans _ ?r'' => replace r' with r''; [exact HT|]
        end
    end.
    unfold callNetworkReady, st0. simpl.
    destruct (networkReadyCalledRef (refs st)) eqn:Ec; destruct c; simpl;
      unfold readyView, readyPending, setTimeout; simpl;
      rewrite ?Ec, ?filter_app, ?map_app, ?E2, ?map_app; simpl;
      rewrite ?app_nil_r; reflexivity.
  - (* the second timer: the parent's callback *)
    destruct Hin as [l1 [l2 [E1 E2]]]; [unfold isReadyTask; rewrite Et; reflexivity|].
    assert (Hpend : rvPending (readyView st)
                    = map task l1 ++ OnNetworkReady :: map task l2).
    { simpl. unfold readyPending. rewrite E1, map_app. simpl. rewrite Et. reflexivity. }
    pose proof (TNotify (readyView st) (map task l1) (map task l2) Hpend) as HT.
    match goal with
    | |- Trans _ ?r' =>
        match type of HT with
        | Trans _ ?r'' => replace r' with r''; [exact HT|]
        end
    end.
    unfold readyView, readyPending, st0. simpl. rewrite E2, map_app. reflexivity.
  - (* a deferred edge update *)
    rewrite readyView_updateEdgesForHighlight.
    replace (readyView st0) with (readyView st); [apply TSame|].
    unfold readyView, readyPending, st0. simpl.
    rewrite Hout; [reflexivity|]. unfold isReadyTask. rewrite Et. reflexivity.
Qed.

Lemma recolor_trans (H : Host) (st0 st st' : Engine) :
  readyView st0 = readyView st ->
  match recolorEffect H st0 with
  | None => None
  | Some (st1, p) => Some (afterPublication p st1)
  end = Some st' ->
  Trans (readyView st) (readyView st').
Proof.
  intros Hv. destruct (recolorEffect H st0) as [[st1 p]|] eqn:Er; [|discriminate].
  intro E. inversion E. clear E.
  apply readyView_recolorEffect in Er. rewrite <- Hv, <- Er.
  apply readyView_afterPublication.
Qed.

(** Every event other than a data change acts on the notification state
    by one of the four transitions. *)
Lemma step_trans (H : Host) (ev : Event) (st st' : Engine) :
  isSetRows ev = false ->
  step H st ev = Some st' ->
  Trans (readyView st) (readyView st').
Proof.
  intros Hev Hs. destruct ev; try discriminate Hev; clear Hev.
  - (* SetColorBy *)
    simpl in Hs. destruct (k =? colorBy (props st)).
    + inversion Hs. apply TSame.
    + eapply recolor_trans; [|exact Hs]. reflexivity.
  - (* SetEdgeMode *)
    simpl in Hs. destruct (m =? edgeMode (props st)).
    + inversion Hs. apply TSame.
    + destruct (dynamicEdgesEffect (set_edgeMode m st)) as [st1|] eqn:Ed; [|discriminate].
      apply readyView_dynamicEdgesEffect in Ed.
      pose proof (readyView_loadEffect H (clearWhenDisabledEffect st1)) as Hl.
      destruct (loadEffect H (clearWhenDisabledEffect st1)) as [st2 p].
      inversion Hs. simpl in Hl.
      rewrite readyView_clearWhenDisabledEffect, Ed in Hl.
      change (readyView (set_edgeMode m st)) with (readyView st) in Hl.
      rewrite <- Hl. apply readyView_afterPublication.
  - (* SetEnableDynamicEdges *)
    simpl in Hs. destruct (Bool.eqb b (enableDynamicEdges (props st))).
    + inversion Hs. apply TSame.
    + destruct (dynamicEdgesEffect (syncDynamicEdgesRef (set_enableDynamicEdges b st)))
        as [st1|] eqn:Ed; [|discriminate].
      apply readyView_dynamicEdgesEffect in Ed.
      inversion Hs. rewrite readyView_clearWhenDisabledEffect, Ed. apply TSame.
  - (* SetHighlightedNode *)
    simpl in Hs. apply readyView_select in Hs; [|reflexivity].
    rewrite Hs. apply TSame.
  - (* SetHoveredNode *)
    inversion Hs. apply TSame.
  - (* ClickNode *)
    simpl in Hs. destruct (sigmaInstance (refs st)) as [g|]; [|inversion Hs; apply TSame].
    destruct (hasNode g n); [|inversion Hs; apply TSame].
    destruct ((edgeMode (props st) =? "none") && enableDynamicEdgesRef (refs st)).
    + apply readyView_select in Hs; [|reflexivity].
      rewrite Hs, readyView_setTimeout_update. apply TSame.
    + apply readyView_select in Hs; [|reflexivity]. rewrite Hs. apply TSame.
  - (* ClickStage *)
    simpl in Hs. destruct (sigmaInstance (refs st)); [|inversion Hs; apply TSame].
    apply readyView_select in Hs; [|reflexivity]. rewrite Hs. apply TSame.
  - (* ToggleComm *)
    inversion Hs. rewrite readyView_visibilityEffect. apply TSame.
  - (* ToggleAll *)
    inversion Hs. rewrite readyView_visibilityEffect.
    unfold toggleAll. break_goal; apply TSame.
  - (* ToggleHighlight *)
    simpl in Hs. apply readyView_dynamicEdgesEffect in Hs. rewrite Hs. apply TSame.
  - (* SetSequentialPaletteName *)
    simpl in Hs. destruct (n =? sequentialPaletteName (hooks st)).
    + inversion Hs. apply TSame.
    + eapply recolor_trans; [|exact Hs]. reflexivity.
  - (* SetIsReversed *)
    simpl in Hs. destruct (Bool.eqb b (isReversed (hooks st))).
    + inversion Hs. apply TSame.
    + eapply recolor_trans; [|exact Hs]. reflexivity.
  - (* SetScaleType *)
    inversion Hs. apply TSame.
  - (* Tick *)
    apply (tick_trans H). exact Hs.
  - (* Elapse *)
    simpl in Hs. destruct (pickTimer (timers (world st))) as [[t rest]|];
      inversion Hs; apply TSame.
Qed.

Lemma singleton_split {A} (x y : A) (l1 l2 : list A) :
  [x] = l1 ++ y :: l2 -> l1 = [] /\ l2 = [] /\ x = y.
Proof.
  destruct l1 as [|a l1]; simpl; intro E.
  - inversion E. auto.
  - inversion E as [[E1 E2]]. destruct l1; discriminate.
Qed.

Ltac split_phase Hphase :=
  decompose [and or] Hphase; clear Hphase; subst; simpl in *.

Ltac stuck_split :=
  match goal with
  | Hp : ?l1 ++ _ :: _ = [] |- _ => destruct l1; discriminate Hp
  | Hp : ?l1 ++ _ :: _ = [_] |- _ =>
      symmetry in Hp; apply singleton_split in Hp;
      destruct Hp as [? [? Hp]]; subst; simpl in *;
      try discriminate Hp
  end.

Lemma Ready_trans (n0 : nat) (cb strict : bool) (r r' : ReadyView) :
  Ready n0 cb strict r -> Trans r r' -> Ready n0 cb strict r'.
Proof.
  intros [Hcb Hphase] HT. destruct r as [i c p n k]. simpl in *. subst k.
  inversion HT as [|Hi|c0 l1 l2 Hp|l1 l2 Hp]; subst; simpl in *;
    (split; [reflexivity|]).
  - exact Hphase.
  - split_phase Hphase; try discriminate. right. left. auto.
  - split_phase Hphase; stuck_split.
    match goal with
    | E : CallNetworkReady _ = CallNetworkReady _ |- _ => inversion E; subst
    end.
    destruct c0; simpl.
    + right. right. left. auto.
    + right. right. right. right. auto.
  - split_phase Hphase; stuck_split.
    right. right. right. left. auto.
Qed.

Lemma Ready_run (H : Host) (n0 : nat) (cb strict : bool) (evs : list Event) :
  forall st st',
    forallb (fun ev => negb (isSetRows ev)) evs = true ->
    run H st evs = Some st' ->
    Ready n0 cb strict (readyView st) ->
    Ready n0 cb strict (readyView st').
Proof.
  induction evs as [|ev evs IH]; intros st st' Hall Hrun Hr; simpl in Hrun.
  - inversion Hrun. subst. exact Hr.
  - simpl in Hall. apply andb_true_iff in Hall. destruct Hall as [Hev Hall].
    destruct (step H st ev) as [st1|] eqn:Es; [|discriminate].
    apply (IH st1 st' Hall Hrun).
    apply (Ready_trans n0 cb strict (readyView st)); [exact Hr|].
    apply (step_trans H ev); [|exact Es].
    destruct (isSetRows ev); [discriminate|reflexivity].
Qed.

Lemma Ready_at_most_once (n0 : nat) (cb strict : bool) (r : ReadyView) :
  Ready n0 cb strict r -> (n0 <= rvNotified r <= n0 + 1)%nat.
Proof.
  intros [_ Hphase]. destruct r as [i c p n k]. simpl in *.
  split_phase Hphase; lia.
Qed.

Lemma Ready_exactly_once (n0 : nat) (r : ReadyView) :
  Ready n0 true true r -> rvPending r = [] -> rvNotified r = (n0 + 1)%nat.
Proof.
  intros [_ Hphase] Hq. destruct r as [i c p n k]. simpl in *.
  split_phase Hphase; try discriminate; lia.
Qed.

Lemma readyView_metadataEffect (H : Host) (st : Engine) :
  readyView (metadataEffect H st) = readyView st.
Proof. unfold metadataEffect. destruct (metadataRows (props st)); reflexivity. Qed.

Lemma guard_loadEffect (H : Host) (st : Engine) :
  handleCommunitiesRunning (refs st) = false ->
  handleCommunitiesRunning (refs (fst (loadEffect H st))) = false.
Proof.
  intro Hidle. unfold loadEffect.
  destruct (edgeRows (props st)); [exact Hidle|].
  destruct (metadataRows (props st)); [exact Hidle|].
  unfold loadFromEdgeList.
  destruct (buildGraph H _) as [[g w]|]; [|exact Hidle].
  unfold renderGraph.
  match goal with
  | |- context [handleCommunities H ?s g] =>
      destruct (handleCommunities_guard H s g Hidle) as [Hg _];
      destruct (handleCommunities H s g); exact Hg
  end.
Qed.

(** With a live graph and an idle guard the recolouring effect, unless it
    raises, has published. *)
Lemma recolorEffect_live (H : Host) (st st' : Engine) (g : Graph) (p : bool) :
  sigmaInstance (refs st) = Some g ->
  handleCommunitiesRunning (refs st) = false ->
  recolorEffect H st = Some (st', p) ->
  p = true /\ sigmaInstance (refs st') = Some g.
Proof.
  intros Hg Hidle. unfold recolorEffect. rewrite Hg.
  pose proof (handleCommunities_frame H st g) as Hfr.
  destruct (handleCommunities_guard H st g Hidle) as [_ Hrun].
  destruct (handleCommunities H st g) as [s|s|s] eqn:Ec; intro E; inversion E; subst.
  - split; [reflexivity|]. unfold frame in Hfr. simpl in Hfr. congruence.
  - exfalso. apply (Hrun st'). reflexivity.
Qed.

Lemma recolorEffect_dead (H : Host) (st st' : Engine) (p : bool) :
  sigmaInstance (refs st) = None ->
  recolorEffect H st = Some (st', p) ->
  st' = st /\ p = false.
Proof.
  intro Hg. unfold recolorEffect. rewrite Hg. intro E. inversion E. auto.
Qed.

Lemma afterPublication_sigma_none (p : bool) (st : Engine) :
  sigmaInstance (refs st) = None ->
  sigmaInstance (refs (afterPublication p st)) = None.
Proof.
  intro Hg. unfold afterPublication, readyEffect, visibilityEffect.
  destruct p; [|exact Hg]. rewrite Hg. simpl. rewrite Hg. exact Hg.
Qed.

(** When the state has just been published with a non-empty palette on a
    live graph and the notification is armed, the effect disarms it. *)
Lemma afterPublication_disarms (st : Engine) :
  isInitialLoadRef (refs st) = true ->
  sigmaInstance (refs (afterPublication true st)) <> None ->
  palette (hooks (afterPublication true st)) <> [] ->
  isInitialLoadRef (refs (afterPublication true st)) = false.
Proof.
  unfold afterPublication, readyEffect, visibilityEffect.
  intros Hi.
  destruct (sigmaInstance (refs st)) as [g|] eqn:Eg; simpl.
  - destruct (palette (hooks st)) as [|kv pal] eqn:Ep; simpl.
    + rewrite Eg, Ep. simpl. intros _ Hp. contradiction.
    + destruct (isNumeric (hooks st)); simpl; rewrite ?Eg, ?Ep, Hi; simpl;
        intros; reflexivity.
  - rewrite Eg. simpl. intros Hs. contradiction.
Qed.

Lemma Trans_notified_from_empty (r r' : ReadyView) :
  rvPending r = [] -> Trans r r' -> rvNotified r' = rvNotified r.
Proof.
  intros Hp HT.
  inversion HT as [|Hi|c l1 l2 Hq|l1 l2 Hq]; subst; simpl; try reflexivity;
    rewrite Hp in Hq; destruct l1; discriminate Hq.
Qed.

(** The notification state right after a data change. *)
Lemma setRows_ready (H : Host) (st st1 : Engine) (er : list EdgeRow) (mr : list Attrs) :
  readyPending st = [] ->
  step H st (SetRows er mr) = Some st1 ->
  Ready (notified (world st)) (onNetworkReady (props st)) false (readyView st1)
  /\ notified (world st1) = notified (world st)
  /\ (handleCommunitiesRunning (refs st) = false ->
      sigmaInstance (refs st1) <> None ->
      palette (hooks st1) <> [] ->
      Ready (notified (world st)) (onNetworkReady (props st)) true (readyView st1)).
Proof.
  intros Hpend Hs. simpl in Hs.
  set (sa := metadataEffect H (resetReadyEffect (set_rows er mr st))) in *.
  assert (Hva : readyView sa
                = {| rvInitial := true; rvCalled := false; rvPending := [];
                     rvNotified := notified (world st);
                     rvCallback := onNetworkReady (props st) |}).
  { unfold sa. rewrite readyView_metadataEffect.
    unfold readyView. simpl.
    change (readyPending (resetReadyEffect (set_rows er mr st))) with (readyPending st).
    rewrite Hpend. reflexivity. }
  assert (Hga : handleCommunitiesRunning (refs st) = false ->
                handleCommunitiesRunning (refs sa) = false).
  { unfold sa, metadataEffect. simpl.
    destruct mr; simpl; intro E; exact E. }
  pose proof (readyView_loadEffect H sa) as Hvl.
  pose proof (guard_loadEffect H sa) as Hgl.
  destruct (loadEffect H sa) as [sl p1]. simpl in Hvl, Hgl.
  destruct (recolorEffect H sl) as [[sc p2]|] eqn:Er; [|discriminate].
  inversion Hs as [Hst1]. clear Hs.
  pose proof (readyView_recolorEffect H sl sc p2 Er) as Hvc.
  pose proof (readyView_afterPublication (p1 || p2) sc) as HT.
  rewrite Hvc, Hvl, Hva in HT.
  assert (Harmed : Ready (notified (world st)) (onNetworkReady (props st)) false
                         {| rvInitial := true; rvCalled := false; rvPending := [];
                            rvNotified := notified (world st);
                            rvCallback := onNetworkReady (props st) |}).
  { split; [reflexivity|]. left. simpl. auto. }
  pose proof (Ready_trans _ _ _ _ _ Harmed HT) as Hr.
  split; [exact Hr|]. split.
  { apply Trans_notified_from_empty in HT; [exact HT|reflexivity]. }
  intros Hidle Hlive Hpal.
  (* the graph was live when the recolouring effect ran *)
  destruct (sigmaInstance (refs sl)) as [g|] eqn:Eg.
  2: { exfalso. apply Hlive.
       destruct (recolorEffect_dead H sl sc p2 Eg Er) as [-> _].
       apply afterPublication_sigma_none. exact Eg. }
  destruct (recolorEffect_live H sl sc g p2 Eg (Hgl (Hga Hidle)) Er) as [-> _].
  rewrite orb_true_r in *.
  assert (Hic : isInitialLoadRef (refs sc) = true).
  { assert (E : rvInitial (readyView sc) = true)
      by (rewrite Hvc, Hvl, Hva; reflexivity).
    exact E. }
  pose proof (afterPublication_disarms sc Hic Hlive Hpal) as Hdis.
  destruct Hr as [Hcb Hphase]. split; [exact Hcb|].
  destruct Hphase as [[_ [Hi _]]|Hrest].
  - exfalso. change (isInitialLoadRef (refs (afterPublication true sc)) = true) in Hi.
    congruence.
  - right. exact Hrest.
Qed.

(** C4 (amended).  Take a data change that happens while no notification
    timer of an earlier load is pending, and any sequence of later events
    that are not data changes - colouring-key changes, palette changes,
    toggles, selections, timers firing.  The data change itself notifies
    nobody; over the whole sequence the parent is notified at most once;
    and it has been notified exactly once when the load published a
    non-empty palette on a live graph, a callback was supplied and the
    notification timers have run. *)
Theorem C4_network_ready_once_per_load :
  forall (H : Host) (st st1 st2 : Engine) (er : list EdgeRow) (mr : list Attrs)
         (evs : list Event),
    readyPending st = [] ->
    handleCommunitiesRunning (refs st) = false ->
    step H st (SetRows er mr) = Some st1 ->
    forallb (fun ev => negb (isSetRows ev)) evs = true ->
    run H st1 evs = Some st2 ->
    notified (world st1) = notified (world st)
    /\ (notified (world st) <= notified (world st2) <= notified (world st) + 1)%nat
    /\ (sigmaInstance (refs st1) <> None ->
        palette (hooks st1) <> [] ->
        onNetworkReady (props st) = true ->
        readyPending st2 = [] ->
        notified (world st2) = (notified (world st) + 1)%nat).
Proof.
  intros H st st1 st2 er mr evs Hpend Hidle Hload Hevs Hrun.
  destruct (setRows_ready H st st1 er mr Hpend Hload) as [Hr [Hn Hstrict]].
  split; [exact Hn|]. split.
  - pose proof (Ready_run H _ _ _ evs st1 st2 Hevs Hrun Hr) as Hr2.
    exact (Ready_at_most_once _ _ _ _ Hr2).
  - intros Hlive Hpal Hcb Hdone.
    specialize (Hstrict Hidle Hlive Hpal). rewrite Hcb in Hstrict.
    pose proof (Ready_run H _ _ _ evs st1 st2 Hevs Hrun Hstrict) as Hr2.
    exact (Ready_exactly_once _ _ Hr2 Hdone).
Qed.

(** Load, recolour by score, let both timers fire, recolour back, and let
    the clock run on: one notification. *)
Lemma C4_witness :
  exists st2,
    run Demo.host Demo.engine3
        [SetColorBy "score"; Tick; Tick; SetColorBy "group"; Tick; Elapse 500]
    = Some st2
    /\ notified (world st2) = 1%nat.
Proof.
  eexists. split; [vm_compute; reflexivity|].
  refine (proj2 (proj2 (C4_network_ready_once_per_load
                          Demo.host (initialEngine true) Demo.engine3 _
                          Demo.edges3 Demo.meta3
                          [SetColorBy "score"; Tick; Tick; SetColorBy "group";
                           Tick; Elapse 500]
                          eq_refl eq_refl _ eq_refl _)) _ _ eq_refl _).
  - vm_compute. reflexivity.
  - vm_compute. reflexivity.
  - vm_compute. discriminate.
  - vm_compute. discriminate.
  - vm_compute. reflexivity.
Defined.

(** C4 fails as stated.  A load whose colouring attribute no row carries
    publishes an empty palette and is never followed by a notification,
    however many timers fire; and of two loads 50 ms apart only one is
    followed by a notification. *)
Lemma C4_counterexample :
  (exists st,
      run Demo.host (initialEngine true)
          [SetRows Demo.edges3 [[("id", VStr "n1")]; [("id", VStr "n2")]];
           Tick; Tick; Tick]
      = Some st
      /\ sigmaInstance (refs st) <> None
      /\ timers (world st) = []
      /\ notified (world st) = 0%nat)
  /\ (exists st,
         run Demo.host (initialEngine true)
             [SetRows Demo.edges3 Demo.meta3; Elapse 50;
              SetRows Demo.edges3 Demo.meta3; Tick; Tick; Tick; Tick]
         = Some st
         /\ timers (world st) = []
         /\ notified (world st) = 1%nat).
Proof.
  split.
  - eexists. split; [vm_compute; reflexivity|].
    split; [vm_compute; discriminate|]. split; vm_compute; reflexivity.
  - eexists. split; [vm_compute; reflexivity|]. split; vm_compute; reflexivity.
Qed.

(* ------------------------------------------------------------------ *)
(** ** Reachable states

    The hypotheses of the theorems on edge materialisation and on the
    notification - an idle guard, a live graph that holds the endpoints of
    the known edges - hold in every state the engine reaches. *)

Lemma wellFormed_graphView (st st' : Engine) :
  graphView st' = graphView st -> wellFormed st -> wellFormed st'.
Proof.
  unfold graphView, wellFormed. intros Hv [Hidle Hcov].
  inversion Hv as [[Hg He Hn]]. split; [congruence|].
  rewrite He.
  destruct (sigmaInstance (refs st')) as [g'|]; [|exact I].
  destruct (sigmaInstance (refs st)) as [g|]; [|discriminate].
  simpl in Hn. inversion Hn as [Hk].
  rewrite (covers_same_nodes _ g g' Hk). exact Hcov.
Qed.

Lemma wellFormed_initial (cb : bool) : wellFormed (initialEngine cb).
Proof. split; [reflexivity|exact I]. Qed.

Lemma fold_touching_nodes (node : string) (es : list Edge) :
  forall g, nodes (fold_left (fun g e => if touches node e then tryAddEdge g e else g)
                             es g) = nodes g.
Proof.
  induction es as [|e es IH]; intro g; simpl; [reflexivity|].
  rewrite IH. destruct (touches node e); [apply tryAddEdge_nodes|reflexivity].
Qed.

Lemma communityEdges_nodes (st : Engine) (g g' : Graph) :
  communityEdges st g = Some g' -> nodes g' = nodes g.
Proof.
  unfold communityEdges.
  change (nodes g) with (nodes (clearEdges g)).
  generalize (clearEdges g) as g0. generalize (allEdgesRef (refs st)) as es.
  induction es as [|e es IH]; intros g0 Hf; simpl in Hf.
  - inversion Hf. reflexivity.
  - destruct (getNodeAttribute g0 (source e) (colorBy (props st))) as [a|].
    + destruct (getNodeAttribute g0 (target e) (colorBy (props st))) as [b|].
      * destruct (set_has (highlightedComms (hooks st)) a
                  || set_has (highlightedComms (hooks st)) b).
        -- rewrite (IH _ Hf). apply tryAddEdge_nodes.
        -- apply (IH _ Hf).
      * exfalso. clear - Hf. induction es; simpl in Hf; [discriminate|auto].
    + exfalso. clear - Hf. induction es; simpl in Hf; [discriminate|auto].
Qed.

Lemma graphView_updateEdgesForHighlight (node : string) (st : Engine) :
  graphView (updateEdgesForHighlight node st) = graphView st.
Proof.
  unfold updateEdgesForHighlight, graphView.
  destruct (sigmaInstance (refs st)) as [g|] eqn:Eg; simpl; rewrite ?Eg; [|reflexivity].
  simpl. rewrite fold_touching_nodes. reflexivity.
Qed.

Lemma graphView_dynamicEdgesEffect (st st' : Engine) :
  dynamicEdgesEffect st = Some st' -> graphView st' = graphView st.
Proof.
  unfold dynamicEdgesEffect.
  destruct (sigmaInstance (refs st)) as [g|] eqn:Eg;
    [|intro E; inversion E; reflexivity].
  destruct (negb (edgeMode (props st) =? "none") || negb (enableDynamicEdges (props st)));
    [intro E; inversion E; reflexivity|].
  destruct (negb (truthyId (highlightedNode (props st)))
            && Nat.eqb (List.length (highlightedComms (hooks st))) 0).
  { intro E. inversion E. unfold graphView. simpl. rewrite Eg. reflexivity. }
  assert (Hcomm : option_map (fun g' => set_sigmaInstance (Some g') st)
                             (communityEdges st g) = Some st' ->
                  graphView st' = graphView st).
  { destruct (communityEdges st g) as [g'|] eqn:Ec; simpl; [|discriminate].
    intro E. inversion E. unfold graphView. simpl. rewrite Eg. simpl.
    rewrite (communityEdges_nodes st g g' Ec). reflexivity. }
  destruct (highlightedNode (props st)) as [node|]; [|exact Hcomm].
  destruct (negb (node =? "")); [|exact Hcomm].
  intro E. inversion E. apply graphView_updateEdgesForHighlight.
Qed.

Lemma graphView_clearWhenDisabledEffect (st : Engine) :
  graphView (clearWhenDisabledEffect st) = graphView st.
Proof.
  unfold clearWhenDisabledEffect, graphView.
  destruct (sigmaInstance (refs st)) as [g|] eqn:Eg; [|rewrite Eg; reflexivity].
  destruct (negb (enableDynamicEdges (props st)) && (edgeMode (props st) =? "none"));
    simpl; rewrite ?Eg; reflexivity.
Qed.

Lemma graphView_visibilityEffect (st : Engine) :
  graphView (visibilityEffect st) = graphView st.
Proof.
  unfold visibilityEffect, graphView.
  destruct (sigmaInstance (refs st)) as [g|] eqn:Eg; [|rewrite Eg; reflexivity].
  destruct (palette (hooks st)); [rewrite Eg; reflexivity|].
  destruct (isNumeric (hooks st)); simpl; rewrite ?Eg; [reflexivity|].
  simpl. rewrite map_map. reflexivity.
Qed.

Lemma graphView_readyEffect (st : Engine) :
  graphView (readyEffect st) = graphView st.
Proof. unfold readyEffect. break_goal; reflexivity. Qed.

Lemma graphView_afterPublication (p : bool) (st : Engine) :
  graphView (afterPublication p st) = graphView st.
Proof.
  unfold afterPublication. destruct p; [|reflexivity].
  rewrite graphView_readyEffect. apply graphView_visibilityEffect.
Qed.

Lemma graphView_handleCommunities (H : Host) (st : Engine) (g : Graph) :
  handleCommunitiesRunning (refs st) = false ->
  graphView (outcomeState (handleCommunities H st g)) = graphView st.
Proof.
  intro Hidle.
  pose proof (handleCommunities_frame H st g) as Hfr.
  destruct (handleCommunities_guard H st g Hidle) as [Hg _].
  unfold frame in Hfr. unfold graphView. rewrite Hg, Hidle. congruence.
Qed.

Lemma graphView_recolorEffect (H : Host) (st st' : Engine) (p : bool) :
  handleCommunitiesRunning (refs st) = false ->
  recolorEffect H st = Some (st', p) -> graphView st' = graphView st.
Proof.
  intro Hidle. unfold recolorEffect.
  destruct (sigmaInstance (refs st)) as [g|]; [|intro E; inversion E; reflexivity].
  pose proof (graphView_handleCommunities H st g Hidle) as Hv.
  destruct (handleCommunities H st g); intro E; inversion E; subst; exact Hv.
Qed.

Lemma uniq_endpoints_cover (es : list Edge) (g : Graph) :
  map fst (nodes g) = uniq (flat_map (fun e => [source e; target e]) es) ->
  covers es g = true.
Proof.
  intro Hk. apply covers_spec. intros e He.
  destruct (uniq_spec (flat_map (fun e => [source e; target e]) es)) as [_ Hin].
  split; apply hasNode_true_iff; rewrite Hk; apply Hin; apply in_flat_map;
    exists e; simpl; auto.
Qed.

Lemma wellFormed_loadFromEdgeList (H : Host) (st : Engine) :
  handleCommunitiesRunning (refs st) = false ->
  wellFormed (fst (loadFromEdgeList H st)).
Proof.
  intro Hidle.
  destruct (buildGraph_spec H st) as [g [w [Hb [Hk _]]]].
  destruct (loadFromEdgeList_sigma H st g w Hb) as [Hs He].
  split.
  - pose proof (guard_loadEffect H st Hidle) as Hg. unfold loadEffect in Hg.
    unfold loadFromEdgeList in *.
    change (buildGraph H (set_allEdgesRef (map edgeOfRow (edgeRows (props st))) st))
      with (buildGraph H st) in *.
    rewrite Hb in *. unfold renderGraph in *.
    match goal with
    | |- context [handleCommunities H ?s g] =>
        destruct (handleCommunities_guard H s g Hidle) as [Hg' _];
        destruct (handleCommunities H s g); exact Hg'
    end.
  - rewrite Hs, He. apply uniq_endpoints_cover. exact Hk.
Qed.

Lemma wellFormed_loadEffect (H : Host) (st : Engine) :
  wellFormed st -> wellFormed (fst (loadEffect H st)).
Proof.
  intros Hwf. unfold loadEffect.
  destruct (edgeRows (props st)); [exact Hwf|].
  destruct (metadataRows (props st)); [exact Hwf|].
  apply wellFormed_loadFromEdgeList. exact (proj1 Hwf).
Qed.

Lemma wellFormed_select (n : option string) (st st' : Engine) :
  wellFormed st -> select n st = Some st' -> wellFormed st'.
Proof.
  intros Hwf. unfold select.
  destruct (optStrEqb n (highlightedNode (props st))).
  - intro E. inversion E. subst. exact Hwf.
  - intro E. apply graphView_dynamicEdgesEffect in E.
    apply (wellFormed_graphView (set_highlightedNode n st)); [exact E|exact Hwf].
Qed.

Lemma wellFormed_recolor (H : Host) (st0 st' : Engine) :
  wellFormed st0 ->
  match recolorEffect H st0 with
  | None => None
  | Some (st1, p) => Some (afterPublication p st1)
  end = Some st' ->
  wellFormed st'.
Proof.
  intros Hwf. destruct (recolorEffect H st0) as [[st1 p]|] eqn:Er; [|discriminate].
  intro E. inversion E.
  apply (wellFormed_graphView st0); [|exact Hwf].
  rewrite graphView_afterPublication.
  apply (graphView_recolorEffect H st0 st1 p (proj1 Hwf) Er).
Qed.

Lemma wellFormed_step (H : Host) (ev : Event) (st st' : Engine) :
  wellFormed st -> step H st ev = Some st' -> wellFormed st'.
Proof.
  intros Hwf Hs. destruct ev; simpl in Hs.
  - (* SetRows *)
    set (sa := metadataEffect H (resetReadyEffect (set_rows er mr st))) in *.
    assert (Hwa : wellFormed sa).
    { apply (wellFormed_graphView st); [|exact Hwf].
      unfold sa, metadataEffect. simpl. destruct mr; reflexivity. }
    pose proof (wellFormed_loadEffect H sa Hwa) as Hwl.
    destruct (loadEffect H sa) as [sl p1]. simpl in Hwl.
    destruct (recolorEffect H sl) as [[sc p2]|] eqn:Er; [|discriminate].
    inversion Hs.
    apply (wellFormed_graphView sl); [|exact Hwl].
    rewrite graphView_afterPublication.
    apply (graphView_recolorEffect H sl sc p2 (proj1 Hwl) Er).
  - destruct (k =? colorBy (props st)); [inversion Hs; subst; exact Hwf|].
    apply (wellFormed_recolor H (set_colorBy k st)); [exact Hwf|exact Hs].
  - destruct (m =? edgeMode (props st)); [inversion Hs; subst; exact Hwf|].
    destruct (dynamicEdgesEffect (set_edgeMode m st)) as [st1|] eqn:Ed; [|discriminate].
    apply graphView_dynamicEdgesEffect in Ed.
    assert (Hw1 : wellFormed (clearWhenDisabledEffect st1)).
    { apply (wellFormed_graphView (set_edgeMode m st)); [|exact Hwf].
      rewrite graphView_clearWhenDisabledEffect. exact Ed. }
    pose proof (wellFormed_loadEffect H _ Hw1) as Hwl.
    destruct (loadEffect H (clearWhenDisabledEffect st1)) as [st2 p].
    inversion Hs. simpl in Hwl.
    apply (wellFormed_graphView st2); [apply graphView_afterPublication|exact Hwl].
  - destruct (Bool.eqb b (enableDynamicEdges (props st)));
      [inversion Hs; subst; exact Hwf|].
    destruct (dynamicEdgesEffect (syncDynamicEdgesRef (set_enableDynamicEdges b st)))
      as [st1|] eqn:Ed; [|discriminate].
    apply graphView_dynamicEdgesEffect in Ed. inversion Hs.
    apply (wellFormed_graphView (syncDynamicEdgesRef (set_enableDynamicEdges b st)));
      [|exact Hwf].
    rewrite graphView_clearWhenDisabledEffect. exact Ed.
  - apply (wellFormed_select n st); assumption.
  - inversion Hs. exact Hwf.
  - destruct (sigmaInstance (refs st)) as [g|] eqn:Eg; [|inversion Hs; subst; exact Hwf].
    destruct (hasNode g n); [|inversion Hs; subst; exact Hwf].
    destruct ((edgeMode (props st) =? "none") && enableDynamicEdgesRef (refs st)).
    + apply (wellFormed_select (Some n) (setTimeout (UpdateEdges n) 0 st)); [|exact Hs].
      exact Hwf.
    + apply (wellFormed_select (Some n) st); assumption.
  - destruct (sigmaInstance (refs st)) eqn:Eg; [|inversion Hs; subst; exact Hwf].
    apply (wellFormed_select None (set_hoveredNode None st)); [|exact Hs].
    exact Hwf.
  - inversion Hs.
    apply (wellFormed_graphView (toggleComm c st)); [apply graphView_visibilityEffect|].
    exact Hwf.
  - inversion Hs.
    apply (wellFormed_graphView (toggleAll st)); [apply graphView_visibilityEffect|].
    unfold toggleAll. break_goal; exact Hwf.
  - apply graphView_dynamicEdgesEffect in Hs.
    apply (wellFormed_graphView (toggleHighlight c st)); [exact Hs|exact Hwf].
  - destruct (n =? sequentialPaletteName (hooks st)); [inversion Hs; subst; exact Hwf|].
    apply (wellFormed_recolor H (set_sequentialPaletteName n st)); [exact Hwf|exact Hs].
  - destruct (Bool.eqb b (isReversed (hooks st))); [inversion Hs; subst; exact Hwf|].
    apply (wellFormed_recolor H (set_isReversed b st)); [exact Hwf|exact Hs].
  - inversion Hs. exact Hwf.
  - destruct (pickTimer (timers (world st))) as [[t rest]|];
      [|inversion Hs; subst; exact Hwf].
    inversion Hs.
    set (st0 := set_clock (Nat.max (clock (world st)) (due t)) (set_timers rest st)).
    assert (Hw0 : wellFormed st0) by exact Hwf.
    destruct (task t) as [c| |node]; simpl.
    + unfold callNetworkReady. break_goal; exact Hw0.
    + exact Hw0.
    + apply (wellFormed_graphView st0);
        [apply graphView_updateEdgesForHighlight|exact Hw0].
  - destruct (pickTimer (timers (world st))) as [[t rest]|];
      inversion Hs; exact Hwf.
Qed.

(** Every state reached from the first render is well formed. *)
Lemma wellFormed_run (H : Host) (evs : list Event) :
  forall st st', wellFormed st -> run H st evs = Some st' -> wellFormed st'.
Proof.
  induction evs as [|ev evs IH]; intros st st' Hwf Hrun; simpl in Hrun.
  - inversion Hrun. subst. exact Hwf.
  - destruct (step H st ev) as [st1|] eqn:Es; [|discriminate].
    apply (IH st1 st'); [|exact Hrun].
    apply (wellFormed_step H ev st st1 Hwf Es).
Qed.
